(** * subtitle-to-pdf: the subtitle parsing kernel

    A shallow embedding of the parsing code of [subtitle_to_pdf.py]
    ([parse_vtt], [parse_ebu_tt], the parser choice of [process_csv]) and of
    [src/main.py] ([parse_subtitle_xml]), with the properties of the
    specification stated and proved over it.

    Conventions.
    - A Python [str] is a [string]; each character stands for the code point
      of the same number (0..255).  The character classes below are those of
      CPython for that range.
    - An attribute dictionary is a [gmap string string].
    - [ET.fromstring] / [ET.parse] are the standard library's expat binding;
      what they deliver (a tree, or [ParseError]) is the [Document] the
      parsers below start from.
    - Logging has no effect on results and is left out. *)

From Stdlib Require Import Ascii NArith.
From stdpp Require Import base option list strings gmap.

Local Open Scope N_scope.

(** ** Python string primitives *)

Module PyStr.

Definition ord (c : ascii) : N := N_of_ascii c.

(** [str.isspace] on one character: TAB..CR, FS..US, SPACE, NEL, NBSP. *)
Definition isspace (c : ascii) : bool :=
  let n := ord c in
  ((9 <=? n) && (n <=? 13)) || ((28 <=? n) && (n <=? 32))
  || (n =? 133) || (n =? 160).

(** The line boundaries of [str.splitlines]: LF, VT, FF, CR, FS, GS, RS and
    NEL (CR LF counts once, see [splitlines_go]). *)
Definition islinebreak (c : ascii) : bool :=
  let n := ord c in
  ((10 <=? n) && (n <=? 13)) || ((28 <=? n) && (n <=? 30)) || (n =? 133).

(** One character of [str.isdigit]: 0..9 and the superscripts 2, 3, 1. *)
Definition isdigit_char (c : ascii) : bool :=
  let n := ord c in
  ((48 <=? n) && (n <=? 57)) || (n =? 178) || (n =? 179) || (n =? 185).

(** One character of a decimal number, 0..9. *)
Definition isdecimal_char (c : ascii) : bool :=
  let n := ord c in (48 <=? n) && (n <=? 57).

(** One character of [str.lower]: A..Z and the capitals of 192..222 but the
    multiplication sign 215 move up by 32. *)
Definition lower_char (c : ascii) : ascii :=
  let n := ord c in
  if ((65 <=? n) && (n <=? 90))
     || ((192 <=? n) && (n <=? 222) && negb (n =? 215))
  then ascii_of_N (n + 32) else c.

Fixpoint lower (s : string) : string :=
  match s with
  | "" => ""
  | String c s' => String (lower_char c) (lower s')
  end.

Fixpoint all_chars (p : ascii -> bool) (s : string) : bool :=
  match s with
  | "" => true
  | String c s' => p c && all_chars p s'
  end.

(** A Python string is true in a condition when it is not empty. *)
Definition truthy (s : string) : bool :=
  match s with "" => false | _ => true end.

(** [s.isdigit()]: at least one character, all of them digits. *)
Definition isdigit (s : string) : bool := truthy s && all_chars isdigit_char s.

(** A decimal number in the sense of the specification. *)
Definition isdecimal (s : string) : bool :=
  truthy s && all_chars isdecimal_char s.

Fixpoint lstrip (s : string) : string :=
  match s with
  | "" => ""
  | String c s' => if isspace c then lstrip s' else s
  end.

Fixpoint rstrip (s : string) : string :=
  match s with
  | "" => ""
  | String c s' =>
      match rstrip s' with
      | "" => if isspace c then "" else String c ""
      | r => String c r
      end
  end.

(** [s.strip()] *)
Definition strip (s : string) : string := rstrip (lstrip s).

(** [s.startswith(p)] *)
Fixpoint startswith (s p : string) {struct p} : bool :=
  match p, s with
  | "", _ => true
  | String _ _, "" => false
  | String a p', String b s' => Ascii.eqb a b && startswith s' p'
  end.

(** [s.endswith(p)]: some suffix of [s] is [p]. *)
Fixpoint endswith (s p : string) : bool :=
  String.eqb s p
  || match s with
     | "" => false
     | String _ s' => endswith s' p
     end.

(** [sub in s] *)
Fixpoint contains (s sub : string) : bool :=
  startswith s sub
  || match s with
     | "" => false
     | String _ s' => contains s' sub
     end.

(** [sep.join(l)] *)
Fixpoint join (sep : string) (l : list string) : string :=
  match l with
  | [] => ""
  | [x] => x
  | x :: l' => x +:+ sep +:+ join sep l'
  end.

(** [s.split(sep)] for a separator that is not empty: the pieces between
    the occurrences of [sep], found from the left and not overlapping.
    [skip] counts the characters of a found separator still to pass. *)
Fixpoint split_go (sep : string) (skip : nat) (s : string) : list string :=
  match s with
  | "" => [""]
  | String c s' =>
      match skip with
      | S k => split_go sep k s'
      | O =>
          if startswith s sep
          then "" :: split_go sep (Nat.pred (String.length sep)) s'
          else match split_go sep O s' with
               | p :: ps => String c p :: ps
               | [] => [String c ""]
               end
      end
  end.

Definition split (s sep : string) : list string := split_go sep O s.

Definition LF : ascii := ascii_of_N 10.
Definition CR : ascii := ascii_of_N 13.

(** [s.splitlines()]: [cur] is the line being read, last character first;
    [after_cr] says the character before was a CR, whose LF is passed. The
    text after the last boundary is a line only when it is not empty. *)
Fixpoint splitlines_go (after_cr : bool) (cur : string) (s : string)
  : list string :=
  match s with
  | "" => match cur with "" => [] | _ => [String.rev cur] end
  | String c s' =>
      if after_cr && Ascii.eqb c LF then splitlines_go false cur s'
      else if islinebreak c
           then String.rev cur :: splitlines_go (Ascii.eqb c CR) "" s'
           else splitlines_go false (String c cur) s'
  end.

Definition splitlines (s : string) : list string := splitlines_go false "" s.

(** The Python literal ["\n"]. *)
Definition nl : string := String LF "".

End PyStr.

Import PyStr.

(** ** Cues *)

(** What a parser appends for one cue: the start time and the text. *)
Record Cue : Type := mkCue { timestamp : string; text : string }.

(** The entry [subtitle_to_pdf.py] stores: [f"[{start_time}]: {text_content}"]. *)
Definition format_cue (c : Cue) : string :=
  "[" +:+ timestamp c +:+ "]: " +:+ text c.

(** ** The WebVTT parser ([parse_vtt], subtitle_to_pdf.py) *)

Module Vtt.

(** State of the loop over the items of a block: [time_line] ([None] as in
    the source) and [text_lines]. *)
Definition scan_item (st : option string * list string) (item : string)
  : option string * list string :=
  let '(time_line, text_lines) := st in
  if contains item "-->"
  then (Some (strip item), text_lines)
  else (time_line, text_lines ++ [strip item]).

Definition scan_block (block : list string) : option string * list string :=
  fold_left scan_item block (None, []).

(** The body run on a finished block (lines 74-88, and again 94-107 for the
    last block): the cue it appends to [subtitles], if any. [if time_line:]
    holds for a string that is not empty. *)
Definition process_block (block : list string) : list Cue :=
  let '(time_line, text_lines) := scan_block block in
  let text_lines := filter (fun t => negb (isdigit t)) text_lines in
  match time_line with
  | Some tl =>
      if truthy tl then
        let parts := split tl "-->" in
        let start_time :=
          match parts with
          | p :: _ => strip p
          | [] => "00:00:00.000"
          end in
        let text_content := strip (join " " text_lines) in
        if truthy text_content then [mkCue start_time text_content] else []
      else []
  | None => []
  end.

(** One turn of [for line in lines], on the state [(block, subtitles)]. *)
Definition step (st : list string * list Cue) (line : string)
  : list string * list Cue :=
  let '(block, subtitles) := st in
  if String.eqb (strip line) ""
  then match block with
       | [] => (block, subtitles)
       | _ => ([], subtitles ++ process_block block)
       end
  else (block ++ [line], subtitles).

(** The header line is removed when there is one. *)
Definition drop_header (lines : list string) : list string :=
  match lines with
  | l0 :: rest => if startswith (strip l0) "WEBVTT" then rest else lines
  | [] => lines
  end.

Definition parse_vtt_cues (vtt_content : string) : list Cue :=
  let lines := drop_header (splitlines vtt_content) in
  let '(block, subtitles) := fold_left step lines ([], []) in
  match block with
  | [] => subtitles
  | _ => subtitles ++ process_block block
  end.

(** [parse_vtt]: [None] is the [return None] of the [except] branch, which
    no statement of the [try] body reaches. *)
Definition parse_vtt (vtt_content : string) : option (list string) :=
  Some (format_cue <$> parse_vtt_cues vtt_content).

End Vtt.

(** [l] has the arrow token. *)
Definition has_arrow (l : string) : bool := contains l "-->".

(** [a] is what [l] has before its first arrow. *)
Definition before_first_arrow (l a : string) : Prop :=
  (exists b, l = a +:+ "-->" +:+ b)
  /\ forall a' b', l = a' +:+ "-->" +:+ b' ->
       (String.length a <= String.length a')%nat.

(** The candidate text lines of a block, trimmed, and those of them that
    stay after the index numbers are removed. *)
Definition candidate_lines (block : list string) : list string :=
  strip <$> filter (fun l => has_arrow l = false) block.

Definition kept_lines (block : list string) : list string :=
  filter (fun t => negb (isdigit t)) (candidate_lines block).

Definition block_text (block : list string) : string :=
  strip (join " " (kept_lines block)).

(** What [l] has before its first arrow, all of [l] without one. *)
Fixpoint text_before_arrow (l : string) : string :=
  if startswith l "-->" then ""
  else match l with
       | "" => ""
       | String c l' => String c (text_before_arrow l')
       end.

(** [s] ends with [suffix] but for the case of letters. *)
Definition ends_with_ci (s suffix : string) : Prop :=
  exists a e, s = a +:+ e /\ lower e = lower suffix.

Definition begins_with (s p : string) : Prop := exists r, s = p +:+ r.

(** The segmentation of the specification: the blocks of a line sequence are
    its maximal runs of lines that are not blank. [cur] is the run being
    read. *)
Fixpoint blocks_from (cur : list string) (lines : list string)
  : list (list string) :=
  match lines with
  | [] => match cur with [] => [] | _ => [cur] end
  | l :: ls =>
      if String.eqb (strip l) ""
      then match cur with
           | [] => blocks_from [] ls
           | _ => cur :: blocks_from [] ls
           end
      else blocks_from (cur ++ [l]) ls
  end.

Definition blocks (lines : list string) : list (list string) :=
  blocks_from [] lines.

(** ** Element trees ([xml.etree.ElementTree]) *)

Module ET.

#[local] Unset Elimination Schemes.
Inductive Element : Type :=
  Elem (tag : string) (attrib : gmap string string)
       (text tail : option string) (children : list Element).

#[local] Set Elimination Schemes.

Definition tag (e : Element) : string :=
  match e with Elem t _ _ _ _ => t end.
Definition attrib (e : Element) : gmap string string :=
  match e with Elem _ a _ _ _ => a end.
Definition text (e : Element) : option string :=
  match e with Elem _ _ t _ _ => t end.
Definition tail (e : Element) : option string :=
  match e with Elem _ _ _ t _ => t end.
Definition children (e : Element) : list Element :=
  match e with Elem _ _ _ _ cs => cs end.

(** [e.get(key)] *)
Definition get (e : Element) (key : string) : option string :=
  attrib e !! key.

(** [e.iter()]: the element, then the elements below it, in document
    order. *)
Fixpoint iter (e : Element) : list Element :=
  match e with
  | Elem _ _ _ _ cs =>
      e :: (fix below (l : list Element) : list Element :=
              match l with
              | [] => []
              | c :: l' => iter c ++ below l'
              end) cs
  end.

(** The elements strictly below [e]. *)
Definition descendants (e : Element) : list Element :=
  match iter e with
  | _ :: l => l
  | [] => []
  end.

(** A string attribute that is [None] or empty gives nothing. *)
Definition some_text (t : option string) : list string :=
  match t with
  | Some s => if truthy s then [s] else []
  | None => []
  end.

(** [e.itertext()]: the text of [e], then for each child its own
    [itertext] and its tail. *)
Fixpoint itertext (e : Element) : list string :=
  match e with
  | Elem _ _ t _ cs =>
      some_text t
      ++ (fix inner (l : list Element) : list string :=
            match l with
            | [] => []
            | c :: l' => itertext c ++ some_text (tail c) ++ inner l'
            end) cs
  end.

Fixpoint drop (n : nat) (s : string) : string :=
  match n, s with
  | S k, String _ s' => drop k s'
  | _, _ => s
  end.

(** The test of one element against the tag [t] of a path [.//t], for a
    [t] that does not end in [*]: [{*}name] accepts [name] in any
    namespace or in none, [{}name] is [name], any other tag must be equal. *)
Definition tag_selects (t : string) (e : Element) : bool :=
  if startswith t "{*}"
  then String.eqb (tag e) (drop 3 t) || endswith (tag e) (drop 2 t)
  else String.eqb (tag e) (if startswith t "{}" then drop 2 t else t).

(** [root.findall(".//" + t)] *)
Definition findall_descendants (t : string) (root : Element)
  : list Element :=
  filter (fun e => tag_selects t e = true) (descendants root).

Inductive exn : Type := ParseError | IndexError.

(** How a call ends: with a value, or with an exception that leaves it. *)
Inductive outcome (A : Type) : Type :=
| Returns (a : A)
| Raises (e : exn).
Arguments Returns {A} a.
Arguments Raises {A} e.

(** The input of an XML parser, by what expat makes of it. *)
Inductive Document : Type :=
| NotWellFormed
| WellFormed (root : Element).

(** [ET.fromstring(xml_content)], [ET.parse(xml_file).getroot()] *)
Definition fromstring (d : Document) : outcome Element :=
  match d with
  | NotWellFormed => Raises ParseError
  | WellFormed root => Returns root
  end.

End ET.

(** ** The EBU-TT parser ([parse_ebu_tt], subtitle_to_pdf.py) *)

Module EbuTt.

(** [namespace = {'tt': 'http://www.w3.org/ns/ttml'}], so that the path
    [.//tt:p] names the tag below. *)
Definition tt_p : string := "{http://www.w3.org/ns/ttml}p".

(** One turn of the loop over the [p] elements. *)
Definition cue_of_p (p : ET.Element) : option Cue :=
  let start_time := default "00:00:00.000" (ET.attrib p !! "begin") in
  let text_content := strip (join " " (ET.itertext p)) in
  if truthy text_content then Some (mkCue start_time text_content) else None.

Definition ebu_tt_cues (root : ET.Element) : list Cue :=
  omap cue_of_p (ET.findall_descendants tt_p root).

(** [parse_ebu_tt]: [ParseError] is caught and [None] returned. *)
Definition parse_ebu_tt (xml_content : ET.Document)
  : ET.outcome (option (list string)) :=
  match ET.fromstring xml_content with
  | ET.Returns root => ET.Returns (Some (format_cue <$> ebu_tt_cues root))
  | ET.Raises ET.ParseError => ET.Returns None
  | ET.Raises e => ET.Raises e
  end.

End EbuTt.

(** ** The XML parser of src/main.py ([parse_subtitle_xml]) *)

Module Main.

(** [root.tag.split('}')[0] + '}'] *)
Definition namespace_of (root : ET.Element) : ET.outcome string :=
  match split (ET.tag root) "}" with
  | p :: _ => ET.Returns (p +:+ "}")
  | [] => ET.Raises ET.IndexError
  end.

(** What one child of a [p] element appends to [text_parts]. *)
Definition part_of_child (namespace : string) (element : ET.Element)
  : list (option string) :=
  if String.eqb (ET.tag element) (namespace +:+ "span")
  then [ET.text element]
  else if String.eqb (ET.tag element) (namespace +:+ "br")
       then [Some nl]
       else [].

Definition text_parts (namespace : string) (p : ET.Element)
  : list (option string) :=
  ET.children p ≫= part_of_child namespace.

(** [filter(None, text_parts)] keeps the strings that are not empty. *)
Definition filter_none (parts : list (option string)) : list string :=
  parts ≫= ET.some_text.

(** The tuple [(timestamp, text)] appended for a [p] element; [timestamp]
    is [None] without a [begin] attribute. *)
Definition cue_of_p (namespace : string) (p : ET.Element)
  : option string * string :=
  (ET.get p "begin", join " " (filter_none (text_parts namespace p))).

Definition parse_subtitle_xml (xml_file : ET.Document)
  : ET.outcome (list (option string * string)) :=
  match ET.fromstring xml_file with
  | ET.Raises e => ET.Raises e
  | ET.Returns root =>
      match namespace_of root with
      | ET.Raises e => ET.Raises e
      | ET.Returns namespace =>
          ET.Returns
            (cue_of_p namespace
               <$> ET.findall_descendants (namespace +:+ "p") root)
      end
  end.

End Main.

(** ** The cue text as the specification words it *)

Module Claimed.

(** What a child of a [p] element contributes: a text, or a line-break
    marker. *)
Inductive segment : Type := Text (s : string) | LineBreak.

Definition segment_string (g : segment) : string :=
  match g with
  | Text s => s
  | LineBreak => nl
  end.

(** A [span] child gives its text, a [br] child a marker, any other child
    nothing. *)
Definition segments_of_child (namespace : string) (child : ET.Element)
  : list segment :=
  if String.eqb (ET.tag child) (namespace +:+ "span")
  then Text <$> ET.some_text (ET.text child)
  else if String.eqb (ET.tag child) (namespace +:+ "br")
       then [LineBreak]
       else [].

Definition segments (namespace : string) (p : ET.Element) : list segment :=
  ET.children p ≫= segments_of_child namespace.

(** Texts joined by one space, markers put in as they are, with no space
    on either side. *)
Fixpoint claimed_text (segs : list segment) : string :=
  match segs with
  | [] => ""
  | Text s :: rest =>
      s +:+ match rest with
            | Text _ :: _ => " "
            | _ => ""
            end +:+ claimed_text rest
  | LineBreak :: rest => nl +:+ claimed_text rest
  end.

End Claimed.

(** ** The choice of a parser ([process_csv], subtitle_to_pdf.py) *)

Inductive ParserChoice : Type := UseVtt | UseEbuTt.

(** The condition of line 179. *)
Definition is_vtt (url content : string) : bool :=
  endswith (lower url) ".vtt" || startswith (strip content) "WEBVTT".

(** Lines 178-182: [content] is what [fetch_subtitles] returned, [None] after
    a failed request; no parser runs on a content that is [None] or empty. *)
Definition choose_parser (url : string) (content : option string)
  : option ParserChoice :=
  match content with
  | Some c =>
      if truthy c
      then Some (if is_vtt url c then UseVtt else UseEbuTt)
      else None
  | None => None
  end.

(** ** Documents used below *)

(** [1], a timing line and one text line, each ended by LF. *)
Definition vtt_single_cue : string :=
  "1" +:+ nl +:+ "00:00:01.000 --> 00:00:03.000" +:+ nl
  +:+ "Hello world" +:+ nl.

Definition leaf (t : string) (a : gmap string string)
  (txt : option string) : ET.Element :=
  ET.Elem t a txt None [].

(** [<p begin="00:00:02.500"><span>Line one</span><br/><span>Line
    two</span></p>] with its elements in the namespace [ns]. *)
Definition two_line_p (ns : string) : ET.Element :=
  ET.Elem (ns +:+ "p") {[ "begin" := "00:00:02.500" ]} None None
    [ leaf (ns +:+ "span") ∅ (Some "Line one");
      leaf (ns +:+ "br") ∅ None;
      leaf (ns +:+ "span") ∅ (Some "Line two") ].

(** [<tt xmlns="uri"><body><div>] ps [</div></body></tt>] *)
Definition tt_document (uri : string) (ps : list ET.Element) : ET.Element :=
  let ns := "{" +:+ uri +:+ "}" in
  ET.Elem (ns +:+ "tt") ∅ None None
    [ ET.Elem (ns +:+ "body") ∅ None None
        [ ET.Elem (ns +:+ "div") ∅ None None ps ] ].

Definition ttml_uri : string := "http://www.w3.org/ns/ttml".
Definition ttaf1_uri : string := "http://www.w3.org/2006/10/ttaf1".

Definition ttml_ns : string := "{http://www.w3.org/ns/ttml}".
Definition ttaf1_ns : string := "{http://www.w3.org/2006/10/ttaf1}".

(** The paragraph above in a TTML document, and in a document of the older
    namespace. *)
Definition two_line_document : ET.Document :=
  ET.WellFormed (tt_document ttml_uri [two_line_p ttml_ns]).

Definition ttaf1_document : ET.Document :=
  ET.WellFormed (tt_document ttaf1_uri [two_line_p ttaf1_ns]).

(** [<p begin="00:00:01.000"/>] in a TTML document. *)
Definition empty_p_document : ET.Document :=
  ET.WellFormed
    (tt_document ttml_uri
       [leaf (ttml_ns +:+ "p") {[ "begin" := "00:00:01.000" ]} None]).

(** [<p><span>Hi</span></p>] in a TTML document. *)
Definition no_begin_document : ET.Document :=
  ET.WellFormed
    (tt_document ttml_uri
       [ET.Elem (ttml_ns +:+ "p") ∅ None None
          [leaf (ttml_ns +:+ "span") ∅ (Some "Hi")]]).

(** A header, a cue, a block without timing line, a block with only an index
    number under its timing line, and a last cue of two text lines ended by
    CR LF. *)
Definition vtt_with_bad_blocks : string :=
  "WEBVTT" +:+ nl +:+ nl
  +:+ "1" +:+ nl +:+ "00:00:01.000 --> 00:00:03.000" +:+ nl
  +:+ "Hello world" +:+ nl +:+ nl
  +:+ "NOTE no timing here" +:+ nl +:+ nl
  +:+ "00:00:04.000 --> 00:00:05.000" +:+ nl +:+ " 2 " +:+ nl +:+ nl
  +:+ "3" +:+ String CR nl +:+ "00:00:06.000 --> 00:00:07.000" +:+ String CR nl
  +:+ "Good" +:+ String CR nl +:+ "bye".

(** A block with two timing lines. *)
Definition vtt_two_arrows : string :=
  "00:00:01.000 --> 00:00:02.000" +:+ nl
  +:+ " 00:00:05.000 --> 00:00:06.000 --> x" +:+ nl +:+ "Hello" +:+ nl.

(** ** The PDF of subtitle_to_pdf.py ([create_pdf]) *)

Module Render.

(** One character of [str.isalnum]: the letters and the numeric characters
    of the range. *)
Definition isalnum (c : ascii) : bool :=
  let n := ord c in
  ((48 <=? n) && (n <=? 57)) || ((65 <=? n) && (n <=? 90))
  || ((97 <=? n) && (n <=? 122)) || (n =? 170)
  || ((178 <=? n) && (n <=? 179)) || (n =? 181)
  || ((185 <=? n) && (n <=? 186)) || ((188 <=? n) && (n <=? 190))
  || ((192 <=? n) && (n <=? 214)) || ((216 <=? n) && (n <=? 246))
  || (248 <=? n).

(** [c.isalnum() or c in " _-"] *)
Definition allowed_char (c : ascii) : bool :=
  isalnum c || contains " _-" (String c "").

(** [safe_title]: every character that is not allowed becomes [_]. *)
Fixpoint safe_title (title_str : string) : string :=
  match title_str with
  | "" => ""
  | String c s' =>
      String (if allowed_char c then c else "_"%char) (safe_title s')
  end.

(** [os.path.join(a, b)] of [posixpath]. *)
Definition path_join (a b : string) : string :=
  if startswith b "/" then b
  else if negb (truthy a) || endswith a "/" then a +:+ b
  else a +:+ "/" +:+ b.

(** A match of [</?font[^>]*>] begins where [s] begins: [s] opens a font
    tag, and has a [>] to close it. *)
Definition font_tag_at (s : string) : bool :=
  (startswith s "<font" || startswith s "</font") && contains s ">".

(** [re.sub(r'</?font[^>]*>', '', s)]: the matches are taken from the left;
    one runs up to the first [>] that follows, and [inside] says that the
    character read belongs to one. *)
Fixpoint strip_font_go (inside : bool) (s : string) : string :=
  match s with
  | "" => ""
  | String c s' =>
      if inside
      then if Ascii.eqb c ">" then strip_font_go false s'
           else strip_font_go true s'
      else if font_tag_at s then strip_font_go true s'
           else String c (strip_font_go false s')
  end.

Definition strip_font_tags (subtitle : string) : string :=
  strip_font_go false subtitle.

(** What [create_pdf] writes when the font and the PDF library do their
    part: the file, the heading cell and the cells of the subtitles. *)
Record Pdf : Type := mkPdf {
  filename : string;
  heading : string;
  cells : list string
}.

Definition create_pdf (title : string) (subtitles : list string)
  (output_folder : string) : Pdf :=
  {| filename := path_join output_folder (safe_title title +:+ ".pdf");
     heading := title;
     cells := strip_font_tags <$> subtitles |}.

End Render.

(** ** The batch of subtitle_to_pdf.py ([process_csv]) *)

(** What leaves [process_csv]: [StopIteration] from [next(reader)],
    [ValueError] from [title, url = row], or what a parser lets out. *)
Inductive batch_exn : Type :=
| StopIteration
| ValueError
| Uncaught (e : ET.exn).

(** What the reading of the CSV file can raise, none of it caught by
    [process_csv]: [OSError] from [os.makedirs] or [open],
    [UnicodeDecodeError] from the decoding, [csv.Error] from the reader. *)
Inductive read_error : Type := OSError | UnicodeDecodeError | CsvError.

(** The file as [process_csv] meets it: not there, or giving some rows and
    then either its end or an error ([failure]); an error before the first
    row, as one of [os.makedirs] or [open] is, comes with no row. *)
Inductive reading : Type :=
| NoFile
| Reads (rows : list (list string)) (failure : option read_error).

(** What leaves [process_csv] with the reading counted in. *)
Inductive run_exn : Type :=
| Reading (e : read_error)
| Batch (e : batch_exn).

Section ProcessCsv.

(** [fetch_subtitles], [None] after a failed request; what expat makes of a
    content; the folder of the run. *)
Variable fetch_subtitles : string -> option string.
Variable expat : string -> ET.Document.
Variable output_folder : string.

Definition run_parser (choice : ParserChoice) (content : string)
  : ET.outcome (option (list string)) :=
  match choice with
  | UseVtt => ET.Returns (Vtt.parse_vtt content)
  | UseEbuTt => EbuTt.parse_ebu_tt (expat content)
  end.

(** Lines 177-186 for one row: the PDF made for it, if any. [if subtitles:]
    holds for a list that is not empty. *)
Definition row_pdf (title url : string) : ET.outcome (option Render.Pdf) :=
  let content := fetch_subtitles url in
  match choose_parser url content, content with
  | Some choice, Some c =>
      match run_parser choice c with
      | ET.Returns (Some (s :: ss)) =>
          ET.Returns (Some (Render.create_pdf title (s :: ss) output_folder))
      | ET.Returns _ => ET.Returns None
      | ET.Raises e => ET.Raises e
      end
  | _, _ => ET.Returns None
  end.

(** [for row in reader], with the PDFs written so far. *)
Fixpoint process_rows (rows : list (list string)) (written : list Render.Pdf)
  : list Render.Pdf * option batch_exn :=
  match rows with
  | [] => (written, None)
  | row :: rest =>
      if (length row <? 2)%nat then process_rows rest written
      else match row with
           | [title; url] =>
               match row_pdf title url with
               | ET.Returns (Some pdf) => process_rows rest (written ++ [pdf])
               | ET.Returns None => process_rows rest written
               | ET.Raises e => (written, Some (Uncaught e))
               end
           | _ => (written, Some ValueError)
           end
  end.

(** [process_csv] on a file that is read without error: [file] is the rows
    [csv.reader] reads, [None] when the file does not exist; the first row
    is the header. *)
Definition process_csv (file : option (list (list string)))
  : list Render.Pdf * option batch_exn :=
  match file with
  | None => ([], None)
  | Some [] => ([], Some StopIteration)
  | Some (_ :: rows) => process_rows rows []
  end.

(** [process_csv] with the reading of the file: the rows are read one by
    one as the loop goes, so that the rows read before an error of the
    reading are treated first, and the error is raised when the loop comes
    to it. *)
Definition process_csv_reading (file : reading)
  : list Render.Pdf * option run_exn :=
  match file with
  | NoFile => ([], None)
  | Reads [] None => ([], Some (Batch StopIteration))
  | Reads [] (Some e) => ([], Some (Reading e))
  | Reads (_ :: rows) failure =>
      let '(written, exn) := process_rows rows [] in
      (written,
       match exn with
       | Some e => Some (Batch e)
       | None => Reading <$> failure
       end)
  end.

(** The PDF a row stands for: that of a row of two fields, when one is made
    for it. *)
Definition pdf_of_row (row : list string) : option Render.Pdf :=
  match row with
  | [title; url] =>
      match row_pdf title url with
      | ET.Returns (Some pdf) => Some pdf
      | _ => None
      end
  | _ => None
  end.

End ProcessCsv.

(** ** The PDF of src/main.py ([create_pdf], [main]) *)

Module MainRender.

(** [s.replace(old, new)] for an [old] that is not empty. *)
Definition replace (s old new : string) : string := join new (split s old).

(** What the story is made of. *)
Inductive flowable : Type :=
| Paragraph (text style : string)
| Spacer (width height : N).

(** [f"[{timestamp}]"] *)
Definition bracketed (timestamp : option string) : string :=
  "[" +:+ default "None" timestamp +:+ "]".

(** The two paragraphs of one entry. *)
Definition entry (cue : option string * string) : list flowable :=
  let '(timestamp, text) := cue in
  [ Paragraph (bracketed timestamp) "TimestampStyle";
    Paragraph (replace text nl "<br/>") "TextStyle" ].

(** The story [create_pdf] hands to [doc.build]. *)
Definition create_pdf (subtitles : list (option string * string))
  : list flowable :=
  [Paragraph "Subtitle Script" "Title"; Spacer 1 30] ++ (subtitles ≫= entry).

(** What [ET.parse(xml_file)] makes of the file: [Unreadable] stands for
    an exception that is not [ParseError] ([OSError] for a file that cannot
    be read, [ValueError] or [LookupError] for an encoding expat cannot
    handle), [Xml] for what expat makes of the text. *)
Inductive parsed_file : Type :=
| Unreadable
| Xml (doc : ET.Document).

(** [Paragraph(text, style)] reads [text] as markup and raises when it is
    not; [markup_ok] says which texts reportlab accepts. *)
Definition paragraph_ok (markup_ok : string -> bool) (f : flowable) : bool :=
  match f with
  | Paragraph text _ => markup_ok text
  | Spacer _ _ => true
  end.

(** [main]: the story handed to [doc.build], or [None] when an exception was
    caught and printed before: one of [ET.parse], or that of a paragraph
    whose text is rejected. *)
Definition main (markup_ok : string -> bool) (input_file : parsed_file)
  : option (list flowable) :=
  match input_file with
  | Unreadable => None
  | Xml doc =>
      match Main.parse_subtitle_xml doc with
      | ET.Returns subtitles =>
          let story := create_pdf subtitles in
          if forallb (paragraph_ok markup_ok) story then Some story else None
      | ET.Raises _ => None
      end
  end.

End MainRender.

(** ** Notions for the properties of the parsers *)

(** [s] with each LF made CR LF. *)
Fixpoint crlf (s : string) : string :=
  match s with
  | "" => ""
  | String c s' =>
      if Ascii.eqb c LF then String CR (String LF (crlf s'))
      else String c (crlf s')
  end.

(** [s] has no line boundary. *)
Definition one_line (s : string) : bool :=
  all_chars (fun c => negb (islinebreak c)) s.

(** [s] does not have the character [x]. *)
Definition lacks (x : ascii) (s : string) : bool :=
  all_chars (fun c => negb (Ascii.eqb x c)) s.

(** A [span] of the namespace [ns] with nothing below it and no tail. *)
Definition plain_span (ns : string) (e : ET.Element) : bool :=
  String.eqb (ET.tag e) (ns +:+ "span")
  && match ET.children e with [] => true | _ => false end
  && match ET.some_text (ET.tail e) with [] => true | _ => false end.

(** A paragraph with no text of its own, made of such spans. *)
Definition span_paragraph (ns : string) (p : ET.Element) : bool :=
  match ET.some_text (ET.text p) with [] => true | _ => false end
  && forallb (plain_span ns) (ET.children p).

(** The characters of a string. *)
Fixpoint chars (s : string) : list ascii :=
  match s with
  | "" => []
  | String c s' => c :: chars s'
  end.

(** A server with one WebVTT file, and an expat that accepts nothing. *)
Definition demo_fetch (url : string) : option string :=
  if String.eqb url "https://example.org/a.vtt" then Some vtt_single_cue
  else None.

Definition demo_expat (content : string) : ET.Document := ET.NotWellFormed.

(** [<tt><body><p begin="00:00:01.000"><span>Hi</span></p></body></tt>],
    with no namespace declared. *)
Definition plain_document : ET.Element :=
  ET.Elem "tt" ∅ None None
    [ ET.Elem "body" ∅ None None
        [ ET.Elem "p" {[ "begin" := "00:00:01.000" ]} None None
            [ leaf "span" ∅ (Some "Hi") ] ] ].

(** [<p begin="00:00:03.000"><span> Good </span><span/><span>evening
    </span></p>] in the TTML namespace. *)
Definition spans_p : ET.Element :=
  ET.Elem (ttml_ns +:+ "p") {[ "begin" := "00:00:03.000" ]} None None
    [ leaf (ttml_ns +:+ "span") ∅ (Some " Good ");
      leaf (ttml_ns +:+ "span") ∅ None;
      leaf (ttml_ns +:+ "span") ∅ (Some "evening ") ].

(** * Properties *)

(** ** Strings *)

#[local] Arguments String.append : simpl nomatch.

Lemma string_app_nil_r (s : string) : s +:+ "" = s.
Proof. induction s as [|c s IH]; simpl; [reflexivity | now rewrite IH]. Qed.

Lemma string_app_assoc (a b c : string) : (a +:+ b) +:+ c = a +:+ b +:+ c.
Proof. induction a as [|x a IH]; simpl; [reflexivity | now rewrite IH]. Qed.

Lemma string_app_length (a b : string) :
  String.length (a +:+ b) = (String.length a + String.length b)%nat.
Proof. induction a as [|x a IH]; simpl; [reflexivity | now rewrite IH]. Qed.

Lemma truthy_true (s : string) : truthy s = true <-> s <> "".
Proof. destruct s; simpl; split; intros; congruence. Qed.

Lemma truthy_false (s : string) : truthy s = false <-> s = "".
Proof. destruct s; simpl; split; intros; congruence. Qed.

Lemma startswith_spec (s p : string) :
  startswith s p = true <-> exists r, s = p +:+ r.
Proof.
  revert s. induction p as [|a p IH]; intros s; simpl.
  - split; [intros _; now exists s | reflexivity].
  - destruct s as [|b s].
    + split; [discriminate | intros [r Hr]; discriminate].
    + rewrite andb_true_iff, IH, Ascii.eqb_eq. split.
      * intros [-> [r ->]]. now exists r.
      * intros [r Hr]. injection Hr as -> ->. split; [reflexivity | now exists r].
Qed.

Lemma contains_spec (s sub : string) :
  contains s sub = true <-> exists a b, s = a +:+ sub +:+ b.
Proof.
  induction s as [|c s IH].
  - cbn [contains]. rewrite orb_false_r, startswith_spec. split.
    + intros [r Hr]. now exists "", r.
    + intros [a [b Hab]]. destruct a; [now exists b | discriminate].
  - cbn [contains]. rewrite orb_true_iff, startswith_spec, IH. split.
    + intros [[r Hr] | [a [b Hab]]].
      * now exists "", r.
      * exists (String c a), b. simpl. now rewrite Hab.
    + intros [[|x a] [b Hab]].
      * left. now exists b.
      * right. simpl in Hab. injection Hab as _ ->. now exists a, b.
Qed.

Lemma endswith_spec (s p : string) :
  endswith s p = true <-> exists a, s = a +:+ p.
Proof.
  induction s as [|c s IH].
  - cbn [endswith]. rewrite orb_false_r, String.eqb_eq. split.
    + intros <-. now exists "".
    + intros [[|x a] Ha]; [assumption | discriminate].
  - cbn [endswith]. rewrite orb_true_iff, String.eqb_eq, IH. split.
    + intros [<- | [a ->]]; [now exists "" | now exists (String c a)].
    + intros [[|x a] Ha]; [now left | right].
      simpl in Ha. injection Ha as _ ->. now exists a.
Qed.

Lemma lower_app (a b : string) : lower (a +:+ b) = lower a +:+ lower b.
Proof. induction a as [|x a IH]; simpl; [reflexivity | now rewrite IH]. Qed.

(** [endswith] after [lower]: the string ends with a piece that [lower]
    turns into the suffix. *)
Lemma endswith_lower_spec (s p : string) :
  endswith (lower s) p = true <-> exists a e, s = a +:+ e /\ lower e = p.
Proof.
  induction s as [|c s IH].
  - split.
    + intros H. apply endswith_spec in H as [a Ha]. exists "", "".
      destruct a; simpl in Ha; [now split | discriminate].
    + intros [a [e [Hs He]]]. destruct a, e; try discriminate. now subst p.
  - cbn [lower endswith]. rewrite orb_true_iff, String.eqb_eq, IH. split.
    + intros [H | [a [e [-> He]]]].
      * exists "", (String c s). now split.
      * exists (String c a), e. now split.
    + intros [[|x a] [e [Hs He]]].
      * left. simpl in Hs. now subst e.
      * right. simpl in Hs. injection Hs as _ ->. now exists a, e.
Qed.

(** *** Trimming *)

Lemma lstrip_idem (s : string) : lstrip (lstrip s) = lstrip s.
Proof.
  induction s as [|c s IH]; simpl; [reflexivity|].
  destruct (isspace c) eqn:E; [assumption | simpl; now rewrite E].
Qed.

Lemma rstrip_cons_nonspace (c : ascii) (s : string) :
  isspace c = false -> rstrip (String c s) = String c (rstrip s).
Proof. intros E. simpl. rewrite E. now destruct (rstrip s). Qed.

Lemma rstrip_idem (s : string) : rstrip (rstrip s) = rstrip s.
Proof.
  induction s as [|c s IH]; simpl; [reflexivity|].
  destruct (rstrip s) as [|d r] eqn:Er.
  - destruct (isspace c) eqn:E; [reflexivity | simpl; now rewrite E].
  - change (rstrip (String c (String d r)) = String c (String d r)).
    cbn [rstrip]. cbn [rstrip] in IH. now rewrite IH.
Qed.

(** A string that [lstrip] leaves alone stays so under [rstrip]. *)
Lemma lstrip_rstrip_fixed (s : string) :
  lstrip s = s -> lstrip (rstrip s) = rstrip s.
Proof.
  destruct s as [|c s]; [reflexivity|]. simpl.
  destruct (isspace c) eqn:E.
  - intros H. exfalso.
    assert (Hlen : forall t, (String.length (lstrip t) <= String.length t)%nat).
    { clear. induction t as [|x t IH]; simpl; [lia|].
      destruct (isspace x); simpl; lia. }
    specialize (Hlen s). rewrite H in Hlen. simpl in Hlen. lia.
  - intros _. destruct (rstrip s); simpl; now rewrite E.
Qed.

Lemma strip_idem (s : string) : strip (strip s) = strip s.
Proof.
  unfold strip. rewrite (lstrip_rstrip_fixed (lstrip s) (lstrip_idem s)).
  apply rstrip_idem.
Qed.

Lemma strip_lstrip (s : string) : strip (lstrip s) = strip s.
Proof. unfold strip. now rewrite lstrip_idem. Qed.

(** What [lstrip] removes is a prefix, what [rstrip] removes a suffix. *)
Lemma lstrip_prefix (s : string) : exists ws, s = ws +:+ lstrip s.
Proof.
  induction s as [|c s [ws IH]]; [now exists ""|]. simpl.
  destruct (isspace c).
  - exists (String c ws). simpl. now rewrite <- IH.
  - now exists "".
Qed.

Lemma rstrip_suffix (s : string) : exists ws, s = rstrip s +:+ ws.
Proof.
  induction s as [|c s [ws IH]]; [now exists ""|]. simpl.
  destruct (rstrip s) as [|d r] eqn:Er.
  - destruct (isspace c).
    + exists (String c ws). simpl in IH. now rewrite <- IH.
    + exists ws. simpl. simpl in IH. now rewrite <- IH.
  - exists ws. simpl. simpl in IH. now rewrite <- IH.
Qed.

Lemma lstrip_app_nonspace (a : string) (c : ascii) (r : string) :
  isspace c = false -> lstrip (a +:+ String c r) = lstrip a +:+ String c r.
Proof.
  intros E. induction a as [|x a IH]; simpl; [now rewrite E|].
  now destruct (isspace x).
Qed.

Lemma rstrip_app_nonempty (a b : string) :
  rstrip b <> "" -> rstrip (a +:+ b) = a +:+ rstrip b.
Proof.
  intros Hb. induction a as [|x a IH]; [reflexivity|].
  cbn [String.append rstrip]. rewrite IH.
  destruct (a +:+ rstrip b) eqn:E; [|reflexivity].
  destruct a; simpl in E; [contradiction | discriminate].
Qed.

(** The arrow is kept whole by trimming: only what is before and after it
    can lose blanks. *)
Lemma strip_around_arrow (a b : string) :
  strip (a +:+ "-->" +:+ b) = lstrip a +:+ "-->" +:+ rstrip b.
Proof.
  unfold strip. change ("-->" +:+ b) with (String "-" (String "-" (String ">" b))).
  rewrite lstrip_app_nonspace by reflexivity.
  rewrite rstrip_app_nonempty.
  - now rewrite !rstrip_cons_nonspace by reflexivity.
  - rewrite !rstrip_cons_nonspace by reflexivity. discriminate.
Qed.

Lemma contains_arrow_strip (l : string) :
  contains l "-->" = true -> truthy (strip l) = true.
Proof.
  intros H. apply contains_spec in H as [a [b ->]].
  rewrite strip_around_arrow. apply truthy_true.
  destruct (lstrip a); discriminate.
Qed.

(** *** Splitting *)

Lemma split_go_nonempty (sep : string) (skip : nat) (s : string) :
  split_go sep skip s <> [].
Proof.
  revert skip. induction s as [|c s IH]; intros skip; simpl; [discriminate|].
  destruct skip; [|apply IH].
  destruct (startswith (String c s) sep); [discriminate|].
  destruct (split_go sep 0 s); discriminate.
Qed.

(** The first piece of a split is what stands before the first separator. *)
Lemma split_first (sep s a b : string) :
  s = a +:+ sep +:+ b ->
  (forall a' b', s = a' +:+ sep +:+ b' ->
     (String.length a <= String.length a')%nat) ->
  exists rest, split s sep = a :: rest.
Proof.
  unfold split. revert s. induction a as [|c a IH]; intros s -> Hmin.
  - simpl. destruct (sep +:+ b) as [|x r] eqn:E; [now exists []|].
    cbn [split_go]. rewrite <- E.
    assert (H : startswith (sep +:+ b) sep = true)
      by (apply startswith_spec; now exists b).
    rewrite H. eauto.
  - cbn [String.append split_go].
    change (String c (a +:+ sep +:+ b)) with (String c a +:+ sep +:+ b).
    destruct (startswith (String c a +:+ sep +:+ b) sep) eqn:E.
    + apply startswith_spec in E as [r Hr].
      specialize (Hmin "" r Hr). simpl in Hmin. lia.
    + destruct (IH (a +:+ sep +:+ b) eq_refl) as [rest ->]; [|eauto].
      intros a' b' H. specialize (Hmin (String c a') b').
      simpl in Hmin. rewrite H in Hmin. specialize (Hmin eq_refl). lia.
Qed.

(** The start time read from a timing line is the trimmed text before its
    first arrow. *)
Lemma start_time_of_line (l a : string) :
  before_first_arrow l a ->
  exists rest, split (strip l) "-->" = lstrip a :: rest.
Proof.
  intros [[b ->] Hmin].
  rewrite strip_around_arrow. eapply split_first; [reflexivity|].
  intros a' b' H.
  destruct (lstrip_prefix a) as [ws Hws].
  destruct (rstrip_suffix b) as [ws' Hws'].
  specialize (Hmin (ws +:+ a') (b' +:+ ws')).
  rewrite Hws in Hmin at 1. rewrite Hws' in Hmin at 1.
  rewrite !string_app_assoc in Hmin.
  assert (E : lstrip a +:+ "-->" +:+ rstrip b +:+ ws'
              = a' +:+ "-->" +:+ b' +:+ ws').
  { rewrite <- !(string_app_assoc _ _ ws'), <- !(string_app_assoc _ "-->" _).
    rewrite <- !(string_app_assoc _ "-->" _) in H. now rewrite H. }
  rewrite E in Hmin. specialize (Hmin eq_refl).
  rewrite Hws in Hmin at 1. rewrite !string_app_length in Hmin. lia.
Qed.

Lemma isdecimal_isdigit (s : string) : isdecimal s = true -> isdigit s = true.
Proof.
  unfold isdecimal, isdigit. rewrite !andb_true_iff. intros [Ht Hall].
  split; [assumption|]. clear Ht.
  induction s as [|c s IH]; [reflexivity|]. simpl in *.
  apply andb_true_iff in Hall as [Hc Hs]. rewrite (IH Hs), andb_true_r.
  unfold isdecimal_char in Hc. unfold isdigit_char. now rewrite Hc.
Qed.

(** The primitives on some values, as Python gives them. *)
Example primitives_on_values :
  split "a-->b-->c" "-->" = ["a"; "b"; "c"]
  /\ split "-->" "-->" = [""; ""]
  /\ split "abc" "-->" = ["abc"]
  /\ splitlines ("a" +:+ String CR nl +:+ "b" +:+ nl +:+ nl +:+ "c")
     = ["a"; "b"; ""; "c"]
  /\ splitlines "" = []
  /\ strip ("  x y " +:+ nl) = "x y"
  /\ isdigit "12" = true /\ isdigit "" = false /\ isdigit "1a" = false
  /\ lower "A.Vtt" = "a.vtt"
  /\ endswith "a.vtt" ".vtt" = true /\ endswith "vtt" ".vtt" = false
  /\ contains "0 --> 1" "-->" = true /\ contains "0 -> 1" "-->" = false
  /\ join " " ["a"; "b"; "c"] = "a b c".
Proof. repeat split; vm_compute; reflexivity. Qed.

(** ** The WebVTT parser *)

Section VttBlocks.

Import Vtt.

Lemma scan_text_lines (block : list string) tl ts :
  (fold_left scan_item block (tl, ts)).2 = ts ++ candidate_lines block.
Proof.
  unfold candidate_lines.
  revert tl ts. induction block as [|l block IH]; intros tl ts; simpl.
  - now rewrite app_nil_r.
  - rewrite filter_cons.
    destruct (decide (has_arrow l = false)) as [E|E]; unfold has_arrow in E.
    + rewrite E, IH. now rewrite fmap_cons, <- app_assoc.
    + apply not_false_iff_true in E. now rewrite E, IH.
Qed.

Lemma scan_time_line_keep (block : list string) tl ts :
  Forall (fun l => has_arrow l = false) block ->
  (fold_left scan_item block (tl, ts)).1 = tl.
Proof.
  intros H. revert tl ts.
  induction H as [|l block Hl _ IH]; intros tl ts; simpl; [reflexivity|].
  unfold has_arrow in Hl. rewrite Hl. apply IH.
Qed.

(** The timing line of a block is its last line with an arrow. *)
Lemma scan_block_last_arrow (pre post : list string) (l : string) :
  has_arrow l = true ->
  Forall (fun l' => has_arrow l' = false) post ->
  scan_block (pre ++ l :: post)
  = (Some (strip l), candidate_lines (pre ++ l :: post)).
Proof.
  intros Hl Hpost. apply injective_projections.
  - unfold scan_block. rewrite fold_left_app. simpl.
    destruct (fold_left scan_item pre (None, [])) as [tl ts].
    simpl. unfold has_arrow in Hl. rewrite Hl.
    now apply scan_time_line_keep.
  - simpl. unfold scan_block. now rewrite scan_text_lines.
Qed.

Lemma scan_block_no_arrow (block : list string) :
  Forall (fun l => has_arrow l = false) block ->
  scan_block block = (None, candidate_lines block).
Proof.
  intros H. apply injective_projections.
  - now apply scan_time_line_keep.
  - simpl. unfold scan_block. now rewrite scan_text_lines.
Qed.

(** A block without a timing line gives no cue. *)
Lemma process_block_no_arrow (block : list string) :
  Forall (fun l => has_arrow l = false) block -> process_block block = [].
Proof.
  intros H. unfold process_block. now rewrite scan_block_no_arrow.
Qed.

(** A block whose last line with an arrow is [l] gives the cue of [l]'s
    start time and of the block's text, when the text is not empty. *)
Lemma process_block_last_arrow (pre post : list string) (l a : string) :
  before_first_arrow l a ->
  Forall (fun l' => has_arrow l' = false) post ->
  process_block (pre ++ l :: post)
  = if truthy (block_text (pre ++ l :: post))
    then [mkCue (strip a) (block_text (pre ++ l :: post))]
    else [].
Proof.
  intros Ha Hpost.
  assert (Hl : has_arrow l = true).
  { destruct Ha as [[b ->] _]. apply contains_spec. now exists a, b. }
  unfold process_block. rewrite (scan_block_last_arrow _ _ _ Hl Hpost).
  rewrite (contains_arrow_strip _ Hl).
  destruct (start_time_of_line _ _ Ha) as [rest ->].
  now rewrite strip_lstrip.
Qed.

(** Every line with an arrow has a text before its first arrow. *)
Lemma has_arrow_before (l : string) :
  has_arrow l = true -> exists a, before_first_arrow l a.
Proof.
  unfold has_arrow. induction l as [|c l IH]; intros H.
  - apply contains_spec in H as [a [b Hab]]. destruct a; discriminate.
  - destruct (startswith (String c l) "-->") eqn:E.
    + exists "". apply startswith_spec in E as [r Hr]. split.
      * now exists r.
      * intros; simpl; lia.
    + cbn [contains] in H. rewrite E in H. simpl in H.
      destruct (IH H) as [a [[b Hb] Hmin]].
      exists (String c a). split.
      * exists b. rewrite Hb. reflexivity.
      * intros [|x a'] b' H'.
        -- assert (startswith (String c l) "-->" = true)
             by (apply startswith_spec; now exists b').
           congruence.
        -- simpl in H'. injection H' as _ H'.
           specialize (Hmin a' b' H'). simpl. lia.
Qed.

(** A block splits at its last line with an arrow, when it has one. *)
Lemma last_arrow_split (block : list string) :
  Forall (fun l => has_arrow l = false) block
  \/ exists pre l post,
       block = pre ++ l :: post /\ has_arrow l = true
       /\ Forall (fun l' => has_arrow l' = false) post.
Proof.
  induction block as [|x block [IH | [pre [l [post [-> [Hl Hpost]]]]]]].
  - now left.
  - destruct (has_arrow x) eqn:E.
    + right. now exists [], x, block.
    + left. now constructor.
  - right. now exists (x :: pre), l, post.
Qed.

(** The loop of [parse_vtt] treats the blocks of the lines one by one. *)
Lemma loop_blocks (lines block : list string) (subtitles : list Cue) :
  (let '(block', subtitles') := fold_left step lines (block, subtitles) in
   match block' with
   | [] => subtitles'
   | _ => subtitles' ++ process_block block'
   end)
  = subtitles ++ (blocks_from block lines ≫= process_block).
Proof.
  revert block subtitles.
  induction lines as [|l lines IH]; intros block subtitles.
  - simpl. destruct block; simpl; now rewrite ?app_nil_r.
  - cbn [fold_left blocks_from]. unfold step at 2.
    destruct (String.eqb (strip l) "").
    + destruct block as [|x block].
      * apply IH.
      * rewrite IH. cbn [mbind list_bind]. now rewrite app_assoc.
    + apply IH.
Qed.

Lemma parse_vtt_cues_blocks (vtt_content : string) :
  parse_vtt_cues vtt_content
  = blocks (drop_header (splitlines vtt_content)) ≫= process_block.
Proof. unfold parse_vtt_cues, blocks. apply loop_blocks. Qed.

End VttBlocks.

(** ** The blocks of a line sequence *)

Lemma blocks_from_runs (cur lines : list string) :
  Forall (fun l => strip l <> "") cur ->
  Forall (fun b => b <> [] /\ Forall (fun l => strip l <> "") b)
    (blocks_from cur lines).
Proof.
  revert cur. induction lines as [|l lines IH]; intros cur Hcur; simpl.
  - destruct cur; [constructor|]. constructor; [now split | constructor].
  - destruct (String.eqb_spec (strip l) "") as [E|E].
    + destruct cur as [|x cur]; [now apply IH|].
      constructor; [now split | now apply IH].
    + apply IH. apply Forall_app. split; [assumption | now repeat constructor].
Qed.

(** The blocks hold the lines that are not blank, in their order. *)
Lemma blocks_from_concat (cur lines : list string) :
  mjoin (blocks_from cur lines)
  = cur ++ filter (fun l => strip l <> "") lines.
Proof.
  revert cur. induction lines as [|l lines IH]; intros cur; simpl.
  - destruct cur; simpl; now rewrite ?app_nil_r.
  - rewrite filter_cons.
    destruct (String.eqb_spec (strip l) "") as [E|E].
    + rewrite decide_False by (intros H; now apply H).
      destruct cur as [|x cur]; [apply IH|].
      cbn [mjoin list_join]. now rewrite IH.
    + rewrite decide_True by assumption. now rewrite IH, <- app_assoc.
Qed.

(** ** Element trees *)

Lemma contains_cons_char (c x : ascii) (s : string) :
  contains (String c s) (String x "")
  = Ascii.eqb x c || contains s (String x "").
Proof. cbn [contains startswith]. now rewrite andb_true_r. Qed.

(** Two ways to cut one string: the longer first part holds the shorter. *)
Lemma string_app_eq_inv (a x a' x' : string) :
  a +:+ x = a' +:+ x' ->
  (String.length a' <= String.length a)%nat ->
  exists m, a = a' +:+ m /\ x' = m +:+ x.
Proof.
  revert a'. induction a as [|c a IH]; intros [|c' a'] H Hlen; simpl in *.
  - now exists "".
  - lia.
  - exists (String c a). now split.
  - injection H as -> H. destruct (IH a' H) as [m [-> ->]]; [lia|].
    now exists m.
Qed.

(** [root.tag.split('}')[0]] is always there. *)
Lemma namespace_of_returns (root : ET.Element) :
  exists ns, Main.namespace_of root = ET.Returns ns.
Proof.
  unfold Main.namespace_of, split.
  destruct (split_go "}" 0 (ET.tag root)) as [|p ps] eqn:E.
  - now apply split_go_nonempty in E.
  - now exists (p +:+ "}").
Qed.

(** The namespace computed by [parse_subtitle_xml] for a root tag
    [{uri}name]. *)
Lemma namespace_of_qualified (uri name : string) a t tl cs :
  contains uri "}" = false ->
  Main.namespace_of (ET.Elem ("{" +:+ uri +:+ "}" +:+ name) a t tl cs)
  = ET.Returns ("{" +:+ uri +:+ "}").
Proof.
  intros Huri. unfold Main.namespace_of. cbn [ET.tag].
  destruct (split_first "}" ("{" +:+ uri +:+ "}" +:+ name) ("{" +:+ uri) name)
    as [rest ->].
  - now rewrite string_app_assoc.
  - intros a' b' H.
    destruct (Nat.le_gt_cases (String.length ("{" +:+ uri)) (String.length a'))
      as [Hle|Hlt]; [assumption | exfalso].
    rewrite <- (string_app_assoc "{" uri) in H.
    destruct (string_app_eq_inv _ _ _ _ H) as [m [Hm Hm']]; [lia|].
    destruct m as [|x m].
    + rewrite Hm, string_app_nil_r in Hlt. lia.
    + injection Hm' as Hx _. subst x.
      assert (Hc : contains ("{" +:+ uri) "}" = true)
        by (apply contains_spec; now exists a', m).
      change ("{" +:+ uri) with (String "{" uri) in Hc.
      rewrite contains_cons_char in Hc. cbn in Hc. congruence.
  - now rewrite string_app_assoc.
Qed.

(** Under the tag [{uri}name] of a declared namespace the path test is
    equality of tags. *)
Lemma tag_selects_qualified (uri name : string) (e : ET.Element) :
  contains uri "}" = false -> uri <> "" -> uri <> "*" ->
  ET.tag_selects ("{" +:+ uri +:+ "}" +:+ name) e
  = String.eqb (ET.tag e) ("{" +:+ uri +:+ "}" +:+ name).
Proof.
  intros Hc Hne Hstar. unfold ET.tag_selects.
  destruct uri as [|x uri]; [contradiction|].
  rewrite contains_cons_char in Hc. apply orb_false_iff in Hc as [Hx Hc].
  assert (H1 : startswith ("{" +:+ String x uri +:+ "}" +:+ name) "{}" = false).
  { cbn [String.append startswith]. now rewrite Hx, andb_false_r. }
  assert (H2 : startswith ("{" +:+ String x uri +:+ "}" +:+ name) "{*}" = false).
  { cbn [String.append startswith].
    destruct (Ascii.eqb_spec "*" x) as [<-|]; [|now rewrite andb_false_r].
    destruct uri as [|y uri]; [contradiction|].
    rewrite contains_cons_char in Hc. apply orb_false_iff in Hc as [Hy _].
    cbn [String.append startswith]. now rewrite Hy, !andb_false_r. }
  now rewrite H1, H2.
Qed.

Lemma findall_qualified (uri name : string) (root : ET.Element) :
  contains uri "}" = false -> uri <> "" -> uri <> "*" ->
  ET.findall_descendants ("{" +:+ uri +:+ "}" +:+ name) root
  = filter (fun e => ET.tag e = "{" +:+ uri +:+ "}" +:+ name)
      (ET.descendants root).
Proof.
  intros Hc Hne Hstar. unfold ET.findall_descendants.
  apply list_filter_iff. intros e.
  rewrite (tag_selects_qualified uri name e Hc Hne Hstar).
  apply String.eqb_eq.
Qed.

Lemma findall_tt_p (root : ET.Element) :
  ET.findall_descendants EbuTt.tt_p root
  = filter (fun e => ET.tag e = EbuTt.tt_p) (ET.descendants root).
Proof. apply (findall_qualified ttml_uri "p"); [reflexivity | discriminate..]. Qed.

(** ** Cues of the WebVTT parser *)

Section VttCues.

Import Vtt.

Lemma text_before_arrow_cons (c : ascii) (l : string) :
  text_before_arrow (String c l)
  = if startswith (String c l) "-->" then ""
    else String c (text_before_arrow l).
Proof. reflexivity. Qed.

Lemma text_before_arrow_first (l : string) :
  has_arrow l = true -> before_first_arrow l (text_before_arrow l).
Proof.
  intros H. destruct (has_arrow_before l H) as [a Ha].
  replace (text_before_arrow l) with a; [assumption|].
  destruct Ha as [[b ->] Hmin]. clear H.
  induction a as [|c a IH]; [reflexivity|].
  change (String c a +:+ "-->" +:+ b) with (String c (a +:+ "-->" +:+ b)).
  rewrite text_before_arrow_cons.
  destruct (startswith (String c (a +:+ "-->" +:+ b)) "-->") eqn:E.
  - apply startswith_spec in E as [r Hr].
    specialize (Hmin "" r Hr). simpl in Hmin. lia.
  - f_equal. apply IH. intros a' b' H'.
    specialize (Hmin (String c a') b').
    change (String c a' +:+ "-->" +:+ b')
      with (String c (a' +:+ "-->" +:+ b')) in Hmin.
    rewrite <- H' in Hmin. specialize (Hmin eq_refl). simpl in Hmin. lia.
Qed.

(** The text of a cue is the text of its block, and is not empty. *)
Lemma process_block_cue (block : list string) (c : Cue) :
  c ∈ process_block block ->
  text c = block_text block /\ block_text block <> "".
Proof.
  unfold process_block.
  pose proof (scan_text_lines block None []) as Hts.
  fold (scan_block block) in Hts.
  destruct (scan_block block) as [tl ts]. simpl in Hts. subst ts.
  fold (kept_lines block). fold (block_text block).
  destruct tl as [tl|]; [|now intros ?%elem_of_nil].
  destruct (truthy tl); [|now intros ?%elem_of_nil].
  destruct (truthy (block_text block)) eqn:E; [|now intros ?%elem_of_nil].
  intros ->%list_elem_of_singleton. split; [reflexivity|].
  now apply truthy_true.
Qed.

(** A block gives no cue exactly when it has no timing line or no text. *)
Lemma process_block_nil (block : list string) :
  process_block block = []
  <-> Forall (fun l => has_arrow l = false) block \/ block_text block = "".
Proof.
  split.
  - intros H.
    destruct (last_arrow_split block)
      as [Hno | [pre [l [post [-> [Hl Hpost]]]]]]; [now left | right].
    rewrite (process_block_last_arrow pre post l (text_before_arrow l)) in H
      by (try apply text_before_arrow_first; assumption).
    apply truthy_false.
    now destruct (truthy (block_text (pre ++ l :: post))).
  - intros [H|H]; [now apply process_block_no_arrow|].
    destruct (process_block block) as [|c cs] eqn:E; [reflexivity|].
    destruct (process_block_cue block c) as [_ Hne]; [|contradiction].
    rewrite E. apply list_elem_of_here.
Qed.

Lemma candidate_lines_no_arrow_lines (block : list string) :
  candidate_lines (filter (fun l => has_arrow l = false) block)
  = candidate_lines block.
Proof.
  unfold candidate_lines. f_equal.
  induction block as [|l block IH]; [reflexivity|].
  rewrite filter_cons. destruct (decide (has_arrow l = false)) as [E|E].
  - rewrite filter_cons, decide_True by assumption. now rewrite IH.
  - assumption.
Qed.

Lemma kept_lines_not_decimal (block : list string) :
  Forall (fun t => isdecimal t = false) (kept_lines block).
Proof.
  apply Forall_forall. intros t [Ht _]%list_elem_of_filter.
  destruct (isdecimal t) eqn:E; [|reflexivity].
  apply isdecimal_isdigit in E. rewrite E in Ht. contradiction.
Qed.

Lemma kept_lines_sublist (block : list string) :
  kept_lines block `sublist_of` strip <$> block.
Proof.
  unfold kept_lines, candidate_lines.
  etrans; [apply sublist_filter|].
  apply fmap_sublist, sublist_filter.
Qed.

End VttCues.

Lemma vtt_single_cue_cues :
  Vtt.parse_vtt_cues vtt_single_cue = [mkCue "00:00:01.000" "Hello world"].
Proof. vm_compute. reflexivity. Qed.

Lemma vtt_two_arrows_blocks :
  blocks (Vtt.drop_header (splitlines vtt_two_arrows))
  = [ ["00:00:01.000 --> 00:00:02.000"]
      ++ " 00:00:05.000 --> 00:00:06.000 --> x" :: ["Hello"] ].
Proof. vm_compute. reflexivity. Qed.

(** ** The claims *)

(** C9. The input of an index line [1], the timing line
    [00:00:01.000 --> 00:00:03.000] and the text line [Hello world], each
    ended by a line feed and with no blank line after them, parses to exactly
    one cue, of timestamp [00:00:01.000] and text [Hello world]; the entry
    stored for it is [[00:00:01.000]: Hello world]. *)
Theorem vtt_single_cue_parses :
  Vtt.parse_vtt_cues vtt_single_cue = [mkCue "00:00:01.000" "Hello world"]
  /\ Vtt.parse_vtt vtt_single_cue = Some ["[00:00:01.000]: Hello world"].
Proof. split; vm_compute; reflexivity. Qed.

(** C3. [parse_vtt] fails on no input: it returns the cues of the blocks of
    the input, taken block by block; a block gives no cue, and leaves the
    cues of the other blocks as they are, exactly when it has no timing line
    or its text is empty; and when no block gives a cue the result is the
    empty sequence. *)
Theorem parse_vtt_never_fails (vtt_content : string) :
  let bs := blocks (Vtt.drop_header (splitlines vtt_content)) in
  Vtt.parse_vtt vtt_content = Some (format_cue <$> (bs ≫= Vtt.process_block))
  /\ (forall block,
        Vtt.process_block block = []
        <-> Forall (fun l => has_arrow l = false) block
            \/ block_text block = "")
  /\ ((forall block, block ∈ bs ->
         Forall (fun l => has_arrow l = false) block \/ block_text block = "")
      -> Vtt.parse_vtt vtt_content = Some []).
Proof.
  intros bs.
  unfold Vtt.parse_vtt. rewrite parse_vtt_cues_blocks. fold bs.
  split; [reflexivity|]. split; [exact process_block_nil|].
  intros Hall. f_equal.
  replace (bs ≫= Vtt.process_block) with (@nil Cue); [reflexivity|].
  symmetry. induction bs as [|b bs IH]; [reflexivity|].
  cbn [mbind list_bind].
  rewrite (proj2 (process_block_nil b)), IH.
  - reflexivity.
  - intros block Hb. apply Hall. now apply list_elem_of_further.
  - apply Hall. apply list_elem_of_here.
Qed.

(** C8. Every cue of [parse_vtt] comes from a block of the input, and its
    text is the trimmed join of lines of that block, taken in order, none of
    which is a decimal number: the lines that are only an index number are
    not among them. *)
Theorem vtt_index_lines_discarded (vtt_content : string) (c : Cue) :
  c ∈ Vtt.parse_vtt_cues vtt_content ->
  exists block,
    block ∈ blocks (Vtt.drop_header (splitlines vtt_content))
    /\ text c = strip (join " " (kept_lines block))
    /\ kept_lines block `sublist_of` strip <$> block
    /\ Forall (fun t => isdecimal t = false) (kept_lines block)
    /\ forall l, l ∈ block -> isdecimal (strip l) = true ->
         strip l ∉ kept_lines block.
Proof.
  rewrite parse_vtt_cues_blocks.
  intros [block [Hc Hb]]%list_elem_of_bind.
  exists block. split; [assumption|].
  split; [apply (process_block_cue block c Hc)|].
  split; [apply kept_lines_sublist|].
  split; [apply kept_lines_not_decimal|].
  intros l _ Hd Hin.
  pose proof (kept_lines_not_decimal block) as Hall.
  rewrite Forall_forall in Hall. specialize (Hall _ Hin). congruence.
Qed.

Lemma vtt_index_lines_discarded_witness :
  exists block,
    block ∈ blocks (Vtt.drop_header (splitlines vtt_single_cue))
    /\ text (mkCue "00:00:01.000" "Hello world")
       = strip (join " " (kept_lines block))
    /\ kept_lines block `sublist_of` strip <$> block
    /\ Forall (fun t => isdecimal t = false) (kept_lines block)
    /\ forall l, l ∈ block -> isdecimal (strip l) = true ->
         strip l ∉ kept_lines block.
Proof.
  apply (vtt_index_lines_discarded vtt_single_cue).
  rewrite vtt_single_cue_cues. apply list_elem_of_here.
Defined.

(** C10. In a block of the input whose last line with an arrow is [l]
    (whatever lines with an arrow stand before it), the cue of the block has
    for timestamp the trimmed text before the arrow of [l]; its text is that
    of the block without its lines with an arrow, so that none of them adds
    to it; and the cue is among those the parser returns. *)
Theorem vtt_last_arrow_line_is_timing
  (vtt_content : string) (pre post : list string) (l : string) :
  pre ++ l :: post ∈ blocks (Vtt.drop_header (splitlines vtt_content)) ->
  has_arrow l = true ->
  Forall (fun l' => has_arrow l' = false) post ->
  let block := pre ++ l :: post in
  Vtt.process_block block
  = (if truthy (block_text block)
     then [mkCue (strip (text_before_arrow l)) (block_text block)]
     else [])
  /\ block_text block
     = block_text (filter (fun l' => has_arrow l' = false) block)
  /\ forall c, c ∈ Vtt.process_block block -> c ∈ Vtt.parse_vtt_cues vtt_content.
Proof.
  intros Hb Hl Hpost block. split; [|split].
  - apply process_block_last_arrow; [|assumption].
    now apply text_before_arrow_first.
  - unfold block_text, kept_lines.
    now rewrite candidate_lines_no_arrow_lines.
  - intros c Hc. rewrite parse_vtt_cues_blocks.
    apply list_elem_of_bind. now exists block.
Qed.

Lemma vtt_last_arrow_line_is_timing_witness :
  let block := ["00:00:01.000 --> 00:00:02.000"]
               ++ " 00:00:05.000 --> 00:00:06.000 --> x" :: ["Hello"] in
  Vtt.process_block block
  = (if truthy (block_text block)
     then [mkCue (strip (text_before_arrow
                           " 00:00:05.000 --> 00:00:06.000 --> x"))
             (block_text block)]
     else [])
  /\ block_text block
     = block_text (filter (fun l' => has_arrow l' = false) block)
  /\ forall c, c ∈ Vtt.process_block block -> c ∈ Vtt.parse_vtt_cues vtt_two_arrows.
Proof.
  apply (vtt_last_arrow_line_is_timing vtt_two_arrows).
  - rewrite vtt_two_arrows_blocks. apply list_elem_of_here.
  - reflexivity.
  - repeat constructor.
Defined.

Example vtt_with_bad_blocks_cues :
  Vtt.parse_vtt vtt_with_bad_blocks
  = Some ["[00:00:01.000]: Hello world"; "[00:00:06.000]: Good bye"].
Proof. vm_compute. reflexivity. Qed.

Example vtt_two_arrows_cues :
  Vtt.parse_vtt_cues vtt_two_arrows = [mkCue "00:00:05.000" "Hello"].
Proof. vm_compute. reflexivity. Qed.

(** ** Cues of the XML parsers *)

Lemma ebu_tt_cue_of_p_text (p : ET.Element) (c : Cue) :
  EbuTt.cue_of_p p = Some c ->
  text c = strip (join " " (ET.itertext p)) /\ text c <> "".
Proof.
  unfold EbuTt.cue_of_p.
  destruct (truthy (strip (join " " (ET.itertext p)))) eqn:E; [|discriminate].
  intros [= <-]. split; [reflexivity | now apply truthy_true].
Qed.

Lemma parse_ebu_tt_well_formed (root : ET.Element) :
  EbuTt.parse_ebu_tt (ET.WellFormed root)
  = ET.Returns (Some (format_cue <$> EbuTt.ebu_tt_cues root)).
Proof. reflexivity. Qed.

Lemma parse_subtitle_xml_well_formed (root : ET.Element) (ns : string) :
  Main.namespace_of root = ET.Returns ns ->
  Main.parse_subtitle_xml (ET.WellFormed root)
  = ET.Returns (Main.cue_of_p ns <$> ET.findall_descendants (ns +:+ "p") root).
Proof. intros H. unfold Main.parse_subtitle_xml. simpl. now rewrite H. Qed.

(** The strings [parse_subtitle_xml] joins are those of the segments. *)
Lemma filter_none_segments (ns : string) (p : ET.Element) :
  Main.filter_none (Main.text_parts ns p)
  = Claimed.segment_string <$> Claimed.segments ns p.
Proof.
  unfold Main.filter_none, Main.text_parts, Claimed.segments.
  induction (ET.children p) as [|child cs IH]; [reflexivity|].
  cbn [mbind list_bind]. rewrite bind_app, fmap_app, IH. f_equal.
  unfold Main.part_of_child, Claimed.segments_of_child.
  destruct (String.eqb (ET.tag child) (ns +:+ "span")).
  - cbn [mbind list_bind]. rewrite app_nil_r.
    destruct (ET.text child) as [s|]; [|reflexivity].
    simpl. now destruct (truthy s).
  - now destruct (String.eqb (ET.tag child) (ns +:+ "br")).
Qed.

(** The text below an element: its own, then for each child the text below
    the child and the tail of the child. *)
Lemma itertext_unfold (t : string) (a : gmap string string)
  (tx tl : option string) (cs : list ET.Element) :
  ET.itertext (ET.Elem t a tx tl cs)
  = ET.some_text tx
    ++ (cs ≫= fun c => ET.itertext c ++ ET.some_text (ET.tail c)).
Proof.
  cbn [ET.itertext]. f_equal.
  induction cs as [|c cs IH]; [reflexivity|].
  cbn [mbind list_bind]. rewrite IH. now rewrite <- app_assoc.
Qed.

Lemma two_line_cue_main :
  Main.parse_subtitle_xml two_line_document
  = ET.Returns [(Some "00:00:02.500", "Line one " +:+ nl +:+ " Line two")].
Proof. vm_compute. reflexivity. Qed.

Lemma two_line_cue_ebu_tt :
  EbuTt.parse_ebu_tt two_line_document
  = ET.Returns (Some ["[00:00:02.500]: Line one Line two"]).
Proof. vm_compute. reflexivity. Qed.

(** C1, as the specification has it, fails on [parse_subtitle_xml]: the
    paragraph [<p begin="00:00:01.000"/>] is returned as a cue, with the empty
    text. *)
Lemma parse_subtitle_xml_emits_empty_text :
  Main.parse_subtitle_xml empty_p_document
  = ET.Returns [(Some "00:00:01.000", "")].
Proof. vm_compute. reflexivity. Qed.

(** C1, amended. Every cue returned by [parse_ebu_tt] and by [parse_vtt] has
    a text that is not empty after trimming: the entries they return are
    those of the cues of [ebu_tt_cues] and of [parse_vtt_cues], none of which
    has an empty text. [parse_subtitle_xml] returns one cue for each [p]
    element it selects, whatever its text. *)
Theorem emitted_cues_have_text :
  (forall root,
     EbuTt.parse_ebu_tt (ET.WellFormed root)
     = ET.Returns (Some (format_cue <$> EbuTt.ebu_tt_cues root))
     /\ Forall (fun c => strip (text c) <> "") (EbuTt.ebu_tt_cues root))
  /\ (forall vtt_content,
        Vtt.parse_vtt vtt_content
        = Some (format_cue <$> Vtt.parse_vtt_cues vtt_content)
        /\ Forall (fun c => strip (text c) <> "")
             (Vtt.parse_vtt_cues vtt_content))
  /\ (forall root,
        exists ns,
          Main.parse_subtitle_xml (ET.WellFormed root)
          = ET.Returns
              (Main.cue_of_p ns
                 <$> ET.findall_descendants (ns +:+ "p") root)).
Proof.
  split; [|split].
  - intros root. split; [apply parse_ebu_tt_well_formed|].
    apply Forall_forall. intros c [p [_ Hp]]%list_elem_of_omap.
    destruct (ebu_tt_cue_of_p_text p c Hp) as [Ht Hne].
    rewrite Ht, strip_idem, <- Ht. assumption.
  - intros vtt_content. split; [reflexivity|].
    apply Forall_forall. intros c Hc. rewrite parse_vtt_cues_blocks in Hc.
    apply list_elem_of_bind in Hc as [block [Hc _]].
    destruct (process_block_cue block c Hc) as [Ht Hne].
    rewrite Ht. unfold block_text. rewrite strip_idem. exact Hne.
  - intros root. destruct (namespace_of_returns root) as [ns Hns].
    exists ns. now apply parse_subtitle_xml_well_formed.
Qed.

(** C2, as the specification has it, fails on [parse_ebu_tt]: in a document
    of the namespace [http://www.w3.org/2006/10/ttaf1] it selects no [p]
    element, where [parse_subtitle_xml] finds the cue. *)
Lemma parse_ebu_tt_fixed_namespace :
  EbuTt.parse_ebu_tt ttaf1_document = ET.Returns (Some [])
  /\ Main.parse_subtitle_xml ttaf1_document
     = ET.Returns [(Some "00:00:02.500", "Line one " +:+ nl +:+ " Line two")].
Proof. split; vm_compute; reflexivity. Qed.

(** C2, amended. For a root element of tag [{uri}name], [parse_subtitle_xml]
    takes [{uri}] for namespace and makes its cues from the elements of tag
    [{uri}p] below the root, whichever [uri] the document declares;
    [parse_ebu_tt] makes its cues from the elements below the root whose tag
    is [{http://www.w3.org/ns/ttml}p], whatever the namespace of the root. *)
Theorem namespace_of_root_governs_main
  (uri name : string) (a : gmap string string) (t tl : option string)
  (cs : list ET.Element) :
  contains uri "}" = false -> uri <> "" -> uri <> "*" ->
  let root := ET.Elem ("{" +:+ uri +:+ "}" +:+ name) a t tl cs in
  let ns := "{" +:+ uri +:+ "}" in
  Main.namespace_of root = ET.Returns ns
  /\ Main.parse_subtitle_xml (ET.WellFormed root)
     = ET.Returns
         (Main.cue_of_p ns
            <$> filter (fun e => ET.tag e = ns +:+ "p") (ET.descendants root))
  /\ EbuTt.parse_ebu_tt (ET.WellFormed root)
     = ET.Returns
         (Some (format_cue
                  <$> omap EbuTt.cue_of_p
                        (filter
                           (fun e => ET.tag e = "{http://www.w3.org/ns/ttml}p")
                           (ET.descendants root)))).
Proof.
  intros Hc Hne Hstar root ns.
  assert (Hns : Main.namespace_of root = ET.Returns ns)
    by now apply namespace_of_qualified.
  split; [assumption|]. split.
  - rewrite (parse_subtitle_xml_well_formed root ns Hns). do 2 f_equal.
    unfold ns. rewrite !string_app_assoc.
    now rewrite (findall_qualified uri "p" root Hc Hne Hstar).
  - rewrite parse_ebu_tt_well_formed. unfold EbuTt.ebu_tt_cues.
    now rewrite findall_tt_p.
Qed.

Lemma namespace_of_root_governs_main_witness :
  let root :=
    ET.Elem ("{" +:+ ttaf1_uri +:+ "}" +:+ "tt") ∅ None None
      [two_line_p ttaf1_ns] in
  let ns := "{" +:+ ttaf1_uri +:+ "}" in
  Main.namespace_of root = ET.Returns ns
  /\ Main.parse_subtitle_xml (ET.WellFormed root)
     = ET.Returns
         (Main.cue_of_p ns
            <$> filter (fun e => ET.tag e = ns +:+ "p") (ET.descendants root))
  /\ EbuTt.parse_ebu_tt (ET.WellFormed root)
     = ET.Returns
         (Some (format_cue
                  <$> omap EbuTt.cue_of_p
                        (filter
                           (fun e => ET.tag e = "{http://www.w3.org/ns/ttml}p")
                           (ET.descendants root)))).
Proof.
  apply (namespace_of_root_governs_main ttaf1_uri "tt");
    [reflexivity | discriminate | discriminate].
Defined.

(** C4, as the specification has it, fails on [parse_ebu_tt]: on an input
    that is not well-formed it returns [None], and no [ParseError] reaches
    the caller. *)
Lemma parse_ebu_tt_returns_none :
  EbuTt.parse_ebu_tt ET.NotWellFormed = ET.Returns None.
Proof. reflexivity. Qed.

(** C4, amended. On an input that is not well-formed XML,
    [parse_subtitle_xml] fails with the [ParseError], which reaches its
    caller, and [parse_ebu_tt] catches the [ParseError] and returns [None];
    neither returns a cue sequence. *)
Theorem not_well_formed_input (doc : ET.Document) :
  ET.fromstring doc = ET.Raises ET.ParseError ->
  Main.parse_subtitle_xml doc = ET.Raises ET.ParseError
  /\ EbuTt.parse_ebu_tt doc = ET.Returns None.
Proof.
  intros H. unfold Main.parse_subtitle_xml, EbuTt.parse_ebu_tt.
  now rewrite H.
Qed.

Lemma not_well_formed_input_witness :
  Main.parse_subtitle_xml ET.NotWellFormed = ET.Raises ET.ParseError
  /\ EbuTt.parse_ebu_tt ET.NotWellFormed = ET.Returns None.
Proof. apply (not_well_formed_input ET.NotWellFormed). reflexivity. Defined.

(** C5, as the specification has it, fails on an empty content: no parser
    is chosen then, also for a URL that ends in [.vtt]. *)
Lemma empty_content_no_parser :
  choose_parser "https://example.org/a.vtt" (Some "") = None.
Proof. reflexivity. Qed.

(** C5, amended. For every URL and every content that is not empty, the
    WebVTT parser is chosen if and only if the URL ends in [.vtt], the case
    of letters apart, or the trimmed content begins with [WEBVTT], and the
    EBU-TT parser is chosen in every other case; for an empty or missing
    content no parser is chosen. *)
Theorem choose_parser_rule (url content : string) :
  content <> "" ->
  (choose_parser url (Some content) = Some UseVtt
   <-> ends_with_ci url ".vtt" \/ begins_with (strip content) "WEBVTT")
  /\ (choose_parser url (Some content) = Some UseEbuTt
      <-> ~ (ends_with_ci url ".vtt" \/ begins_with (strip content) "WEBVTT"))
  /\ choose_parser url (Some "") = None
  /\ choose_parser url None = None.
Proof.
  intros Hne. apply truthy_true in Hne.
  assert (Hv : is_vtt url content = true
               <-> ends_with_ci url ".vtt" \/ begins_with (strip content) "WEBVTT").
  { unfold is_vtt. rewrite orb_true_iff, endswith_lower_spec, startswith_spec.
    reflexivity. }
  unfold choose_parser. rewrite Hne.
  destruct (is_vtt url content).
  - split; [|split; [|split]]; try reflexivity.
    + split; [intros _; now apply Hv | reflexivity].
    + split; [discriminate|]. intros H. exfalso. apply H. now apply Hv.
  - split; [|split; [|split]]; try reflexivity.
    + split; [discriminate|]. intros H. apply Hv in H. discriminate.
    + split; [|reflexivity]. intros _ H. apply Hv in H. discriminate.
Qed.

Lemma choose_parser_rule_witness :
  (choose_parser "https://example.org/A.VTT" (Some "<tt/>") = Some UseVtt
   <-> ends_with_ci "https://example.org/A.VTT" ".vtt"
       \/ begins_with (strip "<tt/>") "WEBVTT")
  /\ (choose_parser "https://example.org/A.VTT" (Some "<tt/>") = Some UseEbuTt
      <-> ~ (ends_with_ci "https://example.org/A.VTT" ".vtt"
             \/ begins_with (strip "<tt/>") "WEBVTT"))
  /\ choose_parser "https://example.org/A.VTT" (Some "") = None
  /\ choose_parser "https://example.org/A.VTT" None = None.
Proof.
  apply (choose_parser_rule "https://example.org/A.VTT" "<tt/>"). discriminate.
Defined.

Example choose_parser_examples :
  choose_parser "https://example.org/A.VTT" (Some "<tt/>") = Some UseVtt
  /\ choose_parser "https://example.org/subs" (Some (nl +:+ " WEBVTT" +:+ nl))
     = Some UseVtt
  /\ choose_parser "https://example.org/subs.xml" (Some "<tt/>")
     = Some UseEbuTt.
Proof. repeat split; vm_compute; reflexivity. Qed.

(** C6, as the specification has it, fails on the paragraph given there: the
    text [parse_subtitle_xml] returns has a space on each side of the
    line-break marker, where the specification puts the marker in with no
    space. *)
Lemma line_break_is_space_joined :
  Main.cue_of_p ttml_ns (two_line_p ttml_ns)
  = (Some "00:00:02.500", "Line one " +:+ nl +:+ " Line two")
  /\ Claimed.claimed_text (Claimed.segments ttml_ns (two_line_p ttml_ns))
     = "Line one" +:+ nl +:+ "Line two"
  /\ (Main.cue_of_p ttml_ns (two_line_p ttml_ns)).2
     <> Claimed.claimed_text (Claimed.segments ttml_ns (two_line_p ttml_ns)).
Proof.
  split; [|split]; vm_compute; [reflexivity | reflexivity | discriminate].
Qed.

(** C6, amended. [parse_subtitle_xml] builds the text of a [p] element from
    its direct children in order: a [span] child gives its own text when it
    has one, a [br] child a line-break marker, any other child nothing; and
    all of these, the markers too, are joined with one space between each
    two that follow one another, so that a marker has a space between it and
    a neighbour, and none on a side where it is first or last. The paragraph
    of the specification yields one cue, of timestamp [00:00:02.500] and of
    text [Line one], space, marker, space, [Line two]. [parse_ebu_tt] takes
    all the text below the [p] element, that is its own text and then, for
    each child in order, the text below the child and the tail of the child,
    joined with one space and trimmed. An element without text and without
    children, as a [br] is, has no text below it: it adds no marker, and
    nothing but its tail. The same paragraph yields the text
    [Line one Line two]. *)
Theorem cue_text_of_paragraph :
  (forall ns p,
     (Main.cue_of_p ns p).2
     = join " " (Claimed.segment_string <$> Claimed.segments ns p))
  /\ (forall x, join " " [x] = x)
  /\ (forall x y l, join " " (x :: y :: l) = x +:+ " " +:+ join " " (y :: l))
  /\ Main.parse_subtitle_xml two_line_document
     = ET.Returns [(Some "00:00:02.500", "Line one " +:+ nl +:+ " Line two")]
  /\ (forall p c,
        EbuTt.cue_of_p p = Some c ->
        text c = strip (join " " (ET.itertext p)))
  /\ (forall t a tx tl cs,
        ET.itertext (ET.Elem t a tx tl cs)
        = ET.some_text tx
          ++ (cs ≫= fun c => ET.itertext c ++ ET.some_text (ET.tail c)))
  /\ (forall br,
        ET.some_text (ET.text br) = [] -> ET.children br = [] ->
        ET.itertext br = []
        /\ ET.itertext br ++ ET.some_text (ET.tail br)
           = ET.some_text (ET.tail br))
  /\ EbuTt.parse_ebu_tt two_line_document
     = ET.Returns (Some ["[00:00:02.500]: Line one Line two"]).
Proof.
  split; [|split; [|split; [|split; [|split; [|split; [|split]]]]]].
  - intros ns p. unfold Main.cue_of_p. simpl.
    now rewrite filter_none_segments.
  - reflexivity.
  - reflexivity.
  - exact two_line_cue_main.
  - intros p c H. apply (ebu_tt_cue_of_p_text p c H).
  - exact itertext_unfold.
  - intros [t a tx tl cs] Htx Hcs. cbn [ET.text ET.children] in Htx, Hcs.
    subst cs. rewrite itertext_unfold, Htx. split; reflexivity.
  - exact two_line_cue_ebu_tt.
Qed.

Example line_break_first_or_last :
  Main.cue_of_p ttml_ns
    (ET.Elem (ttml_ns +:+ "p") ∅ None None
       [leaf (ttml_ns +:+ "br") ∅ None; leaf (ttml_ns +:+ "span") ∅ (Some "x")])
  = (None, nl +:+ " x")
  /\ Main.cue_of_p ttml_ns
       (ET.Elem (ttml_ns +:+ "p") ∅ None None [leaf (ttml_ns +:+ "br") ∅ None])
     = (None, nl).
Proof. split; vm_compute; reflexivity. Qed.

(** C7, as the specification has it, fails on [parse_subtitle_xml]: for a
    [p] element without a [begin] attribute the timestamp of the cue is
    [None], not [00:00:00.000]. *)
Lemma parse_subtitle_xml_no_default :
  Main.parse_subtitle_xml no_begin_document = ET.Returns [(None, "Hi")].
Proof. vm_compute. reflexivity. Qed.

(** C7, amended. The timestamp of a cue is the value of the [begin]
    attribute of its [p] element as it stands; without that attribute it is
    [00:00:00.000] in [parse_ebu_tt] and [None] in [parse_subtitle_xml]. *)
Theorem timestamp_of_paragraph :
  (forall root c,
     c ∈ EbuTt.ebu_tt_cues root ->
     exists p,
       p ∈ ET.descendants root /\ ET.tag p = EbuTt.tt_p
       /\ EbuTt.cue_of_p p = Some c
       /\ timestamp c = match ET.attrib p !! "begin" with
                        | Some b => b
                        | None => "00:00:00.000"
                        end)
  /\ (forall ns p, (Main.cue_of_p ns p).1 = ET.attrib p !! "begin")
  /\ EbuTt.parse_ebu_tt no_begin_document
     = ET.Returns (Some ["[00:00:00.000]: Hi"]).
Proof.
  split; [|split].
  - intros root c [p [Hp Hc]]%list_elem_of_omap.
    rewrite findall_tt_p in Hp. apply list_elem_of_filter in Hp as [Ht Hd].
    exists p. repeat split; try assumption.
    unfold EbuTt.cue_of_p in Hc.
    destruct (truthy (strip (join " " (ET.itertext p)))); [|discriminate].
    injection Hc as <-. simpl. now destruct (ET.attrib p !! "begin").
  - reflexivity.
  - vm_compute. reflexivity.
Qed.

(** * Further properties of the code *)

(** ** Characters of a string *)

Lemma all_chars_app (p : ascii -> bool) (a b : string) :
  all_chars p (a +:+ b) = all_chars p a && all_chars p b.
Proof.
  induction a as [|c a IH]; simpl; [reflexivity|].
  now rewrite IH, andb_assoc.
Qed.

Lemma all_chars_impl (p q : ascii -> bool) (s : string) :
  (forall c, p c = true -> q c = true) ->
  all_chars p s = true -> all_chars q s = true.
Proof.
  intros Hpq. induction s as [|c s IH]; simpl; [reflexivity|].
  rewrite !andb_true_iff. intros [Hc Hs]. split; [now apply Hpq | now apply IH].
Qed.

Lemma lacks_contains (x : ascii) (s : string) :
  lacks x s = true <-> contains s (String x "") = false.
Proof.
  unfold lacks. induction s as [|c s IH].
  - split; reflexivity.
  - rewrite contains_cons_char. cbn [all_chars].
    rewrite andb_true_iff, orb_false_iff, negb_true_iff, IH. reflexivity.
Qed.

Lemma lacks_app (x : ascii) (a b : string) :
  lacks x (a +:+ b) = lacks x a && lacks x b.
Proof. apply all_chars_app. Qed.

(** ** The title and the file of a PDF *)

Section SafeTitle.

Import Render.

Lemma allowed_char_underscore : allowed_char "_" = true.
Proof. reflexivity. Qed.

Lemma safe_title_length (t : string) :
  String.length (safe_title t) = String.length t.
Proof. induction t as [|c t IH]; simpl; [reflexivity | now rewrite IH]. Qed.

Lemma safe_title_allowed (t : string) :
  all_chars allowed_char (safe_title t) = true.
Proof.
  induction t as [|c t IH]; simpl; [reflexivity|].
  rewrite IH, andb_true_r.
  destruct (allowed_char c) eqn:E; [assumption | reflexivity].
Qed.

Lemma safe_title_fixed (t : string) :
  safe_title t = t <-> all_chars allowed_char t = true.
Proof.
  induction t as [|c t IH]; simpl; [split; reflexivity|].
  rewrite andb_true_iff, <- IH. split.
  - intros [= Hc Ht]. split; [|assumption].
    destruct (allowed_char c) eqn:E; [reflexivity|].
    subst c. discriminate.
  - intros [-> ->]. reflexivity.
Qed.

(** A character that is not allowed is in no safe title. *)
Lemma safe_title_lacks (x : ascii) (t : string) :
  allowed_char x = false -> lacks x (safe_title t) = true.
Proof.
  intros Hx. apply (all_chars_impl allowed_char); [|apply safe_title_allowed].
  intros c Hc. apply negb_true_iff.
  destruct (Ascii.eqb_spec x c) as [->|]; [congruence | reflexivity].
Qed.

End SafeTitle.

(** X1. The safe title has the length of the title and is made of allowed
    characters only (letters, numbers, space, [_] and [-]); it has no [/], no
    [\] and no dot, and it keeps every allowed character of the title in its
    place. *)
Theorem safe_title_is_safe (title : string) :
  String.length (Render.safe_title title) = String.length title
  /\ all_chars Render.allowed_char (Render.safe_title title) = true
  /\ lacks "/" (Render.safe_title title) = true
  /\ lacks "\" (Render.safe_title title) = true
  /\ lacks "." (Render.safe_title title) = true
  /\ forall a c b,
       title = a +:+ String c b -> Render.allowed_char c = true ->
       Render.safe_title title
       = Render.safe_title a +:+ String c (Render.safe_title b).
Proof.
  split; [apply safe_title_length|].
  split; [apply safe_title_allowed|].
  do 3 (split; [now apply safe_title_lacks|]).
  intros a c b -> Hc. induction a as [|x a IH]; simpl.
  - now rewrite Hc.
  - now rewrite IH.
Qed.

(** X2. A title is its own safe title exactly when all its characters are
    allowed, and making a safe title safe again changes nothing. *)
Theorem safe_title_fixed_point (title : string) :
  (Render.safe_title title = title
   <-> all_chars Render.allowed_char title = true)
  /\ Render.safe_title (Render.safe_title title) = Render.safe_title title.
Proof.
  split; [apply safe_title_fixed|].
  apply safe_title_fixed, safe_title_allowed.
Qed.

(** X3. The file of a PDF is in the output folder itself, whatever the
    title: its name is the folder, a [/] unless the folder is empty or ends
    with one, the safe title and [.pdf], and what follows the folder has no
    other [/]. *)
Theorem pdf_file_in_output_folder
  (title : string) (subtitles : list string) (output_folder : string) :
  let name := Render.safe_title title +:+ ".pdf" in
  Render.filename (Render.create_pdf title subtitles output_folder)
  = output_folder
    +:+ (if negb (truthy output_folder) || endswith output_folder "/"
         then "" else "/")
    +:+ name
  /\ lacks "/" name = true.
Proof.
  intros name. split.
  - unfold Render.create_pdf, Render.path_join. cbn [Render.filename].
    fold name.
    assert (H : startswith name "/" = false).
    { unfold name. destruct title as [|c t]; [reflexivity|].
      cbn [Render.safe_title String.append startswith].
      destruct (Render.allowed_char c) eqn:E; [|reflexivity].
      destruct (Ascii.eqb_spec "/" c) as [<-|]; [discriminate | reflexivity]. }
    rewrite H.
    now destruct (negb (truthy output_folder) || endswith output_folder "/").
  - unfold name. rewrite lacks_app, safe_title_lacks by reflexivity.
    reflexivity.
Qed.

(** ** Font tags *)

Section FontTags.

Import Render.

Lemma font_tag_at_no_gt (s : string) :
  lacks ">" s = true -> font_tag_at s = false.
Proof.
  intros H. apply lacks_contains in H. unfold font_tag_at.
  now rewrite H, andb_false_r.
Qed.

Lemma strip_font_no_gt (s : string) :
  lacks ">" s = true -> strip_font_go false s = s.
Proof.
  induction s as [|c s IH]; [reflexivity|]. intros H.
  cbn [strip_font_go]. rewrite (font_tag_at_no_gt _ H).
  cbn [lacks all_chars] in H. apply andb_true_iff in H as [_ H].
  now rewrite (IH H).
Qed.

Lemma strip_font_no_opening (s : string) :
  contains s "<font" = false -> contains s "</font" = false ->
  strip_font_go false s = s.
Proof.
  induction s as [|c s IH]; [reflexivity|]. intros H1 H2.
  cbn [contains] in H1, H2.
  apply orb_false_iff in H1 as [H1 H1'], H2 as [H2 H2'].
  cbn [strip_font_go]. unfold font_tag_at. rewrite H1, H2. simpl.
  now rewrite (IH H1' H2').
Qed.

(** Inside a tag, all is passed up to the first [>]. *)
Lemma strip_font_inside (x b : string) :
  lacks ">" x = true ->
  strip_font_go true (x +:+ String ">" b) = strip_font_go false b.
Proof.
  induction x as [|c x IH]; intros H; [reflexivity|].
  cbn [lacks all_chars] in H. apply andb_true_iff in H as [Hc H].
  cbn [String.append strip_font_go].
  apply negb_true_iff in Hc. rewrite Ascii.eqb_sym in Hc. rewrite Hc.
  now apply IH.
Qed.

Lemma strip_font_before (a s : string) :
  lacks "<" a = true ->
  strip_font_go false (a +:+ s) = a +:+ strip_font_go false s.
Proof.
  induction a as [|c a IH]; intros H; [reflexivity|].
  cbn [lacks all_chars] in H. apply andb_true_iff in H as [Hc H].
  cbn [String.append strip_font_go]. unfold font_tag_at.
  cbn [startswith]. apply negb_true_iff in Hc. rewrite Hc. simpl.
  now rewrite (IH H).
Qed.

Lemma strip_font_shorter (inside : bool) (s : string) :
  (String.length (strip_font_go inside s) <= String.length s)%nat
  /\ chars (strip_font_go inside s) `sublist_of` chars s.
Proof.
  revert inside. induction s as [|c s IH]; intros inside.
  - split; [reflexivity | constructor].
  - cbn [strip_font_go]. destruct inside.
    + destruct (Ascii.eqb c ">"); destruct (IH false), (IH true);
        split; simpl; try lia; now apply sublist_cons.
    + destruct (font_tag_at (String c s)); destruct (IH false), (IH true);
        split; simpl; try lia;
        [now apply sublist_cons | now apply sublist_skip].
Qed.

End FontTags.

(** X4. A subtitle that opens no font tag, or that has no [>], passes
    through [re.sub] as it is. *)
Theorem strip_font_tags_unchanged (subtitle : string) :
  (contains subtitle "<font" = false /\ contains subtitle "</font" = false)
  \/ lacks ">" subtitle = true ->
  Render.strip_font_tags subtitle = subtitle.
Proof.
  intros [[H1 H2] | H].
  - now apply strip_font_no_opening.
  - now apply strip_font_no_gt.
Qed.

Lemma strip_font_tags_unchanged_witness :
  Render.strip_font_tags "[00:00:01.000]: a <b>bold</b> word"
  = "[00:00:01.000]: a <b>bold</b> word".
Proof.
  apply (strip_font_tags_unchanged "[00:00:01.000]: a <b>bold</b> word").
  left. split; reflexivity.
Defined.

(** X5. After a text without [<], an opening or closing font tag, with
    whatever stands in it up to its [>], is taken out whole, and the text
    before it is kept as it is. *)
Theorem strip_font_tags_removes_tag (closing : bool) (a attrs b : string) :
  lacks "<" a = true -> lacks ">" attrs = true ->
  Render.strip_font_tags
    (a +:+ (if closing then "</font" else "<font") +:+ attrs +:+ ">" +:+ b)
  = a +:+ Render.strip_font_tags b.
Proof.
  intros Ha Hattrs. unfold Render.strip_font_tags.
  rewrite (strip_font_before a _ Ha). f_equal.
  set (opening := if closing then "</font" else "<font").
  assert (Hat : Render.font_tag_at (opening +:+ attrs +:+ ">" +:+ b) = true).
  { unfold Render.font_tag_at. apply andb_true_iff. split.
    - unfold opening. destruct closing.
      + apply orb_true_iff. right. apply startswith_spec. eauto.
      + apply orb_true_iff. left. apply startswith_spec. eauto.
    - apply contains_spec. exists (opening +:+ attrs), b.
      now rewrite string_app_assoc. }
  assert (Htail : lacks ">" (match opening with
                             | String _ r => r | "" => "" end +:+ attrs)
                  = true).
  { rewrite lacks_app, Hattrs, andb_true_r.
    unfold opening. now destruct closing. }
  destruct opening as [|c r] eqn:E.
  - unfold opening in E. destruct closing; discriminate.
  - cbn [String.append Render.strip_font_go]. cbn [String.append] in Hat.
    rewrite Hat. rewrite <- string_app_assoc.
    now apply strip_font_inside.
Qed.

Lemma strip_font_tags_removes_tag_witness :
  Render.strip_font_tags
    ("[00:00:01.000]: " +:+ "<font" +:+ " color=#ffff00" +:+ ">"
     +:+ "Hello</font> world")
  = "[00:00:01.000]: " +:+ Render.strip_font_tags "Hello</font> world".
Proof.
  apply (strip_font_tags_removes_tag false); reflexivity.
Defined.

(** X6. [re.sub] only takes characters out: what it returns is not longer
    than the subtitle, and its characters are characters of the subtitle in
    their order. *)
Theorem strip_font_tags_only_removes (subtitle : string) :
  (String.length (Render.strip_font_tags subtitle)
   <= String.length subtitle)%nat
  /\ chars (Render.strip_font_tags subtitle) `sublist_of` chars subtitle.
Proof. apply strip_font_shorter. Qed.

Example strip_font_tags_on_values :
  Render.strip_font_tags "<font color=x>Hello</font> world" = "Hello world"
  /\ Render.strip_font_tags "a <font color=x" = "a <font color=x"
  /\ Render.strip_font_tags "<fo<font>nt>" = "<font>".
Proof. repeat split; vm_compute; reflexivity. Qed.

(** ** The batch *)

Section ProcessCsvFacts.

Variable fetch_subtitles : string -> option string.
Variable expat : string -> ET.Document.
Variable output_folder : string.

Local Abbreviation row_pdf_of := (row_pdf fetch_subtitles expat output_folder).
Local Abbreviation row_to_pdf :=
  (pdf_of_row fetch_subtitles expat output_folder).
Local Abbreviation rows_from :=
  (process_rows fetch_subtitles expat output_folder).

(** No exception leaves a parser as [process_csv] calls it. *)
Lemma run_parser_returns (choice : ParserChoice) (content : string) :
  exists r, run_parser expat choice content = ET.Returns r.
Proof.
  destruct choice; simpl; [eauto|].
  unfold EbuTt.parse_ebu_tt. destruct (expat content); simpl; eauto.
Qed.

Lemma row_pdf_returns (title url : string) :
  exists r, row_pdf_of title url = ET.Returns r.
Proof.
  unfold row_pdf.
  destruct (choose_parser url (fetch_subtitles url)) as [choice|]; [|eauto].
  destruct (fetch_subtitles url) as [c|]; [|eauto].
  destruct (run_parser_returns choice c) as [r ->].
  destruct r as [[|s ss]|]; eauto.
Qed.

(** What stands behind a PDF: a content that is not empty, and at least one
    subtitle from the parser chosen for it. *)
Lemma row_pdf_some (title url : string) (pdf : Render.Pdf) :
  row_pdf_of title url = ET.Returns (Some pdf) ->
  exists content subtitles,
    fetch_subtitles url = Some content /\ content <> ""
    /\ run_parser expat (if is_vtt url content then UseVtt else UseEbuTt)
         content = ET.Returns (Some subtitles)
    /\ subtitles <> []
    /\ pdf = Render.create_pdf title subtitles output_folder.
Proof.
  unfold row_pdf, choose_parser.
  destruct (fetch_subtitles url) as [c|]; [|discriminate].
  destruct (truthy c) eqn:Hc; [|discriminate].
  destruct (run_parser expat (if is_vtt url c then UseVtt else UseEbuTt) c)
    as [[[|s ss]|]|e] eqn:E; try discriminate.
  intros [= <-]. exists c, (s :: ss).
  repeat split; try assumption; try discriminate.
  now apply truthy_true.
Qed.

Lemma process_rows_short (rows : list (list string)) (written : list Render.Pdf) :
  Forall (fun row => (length row <= 2)%nat) rows ->
  rows_from rows written = (written ++ omap row_to_pdf rows, None).
Proof.
  intros H. revert written.
  induction H as [|row rows Hrow _ IH]; intros written.
  - simpl. now rewrite app_nil_r.
  - cbn [process_rows omap list_omap].
    destruct row as [|title [|url [|x row]]]; simpl in Hrow; try lia.
    + simpl. apply IH.
    + simpl. apply IH.
    + cbn [length Nat.ltb Nat.leb pdf_of_row].
      destruct (row_pdf_returns title url) as [[pdf|] ->].
      * rewrite IH. now rewrite <- app_assoc.
      * apply IH.
Qed.

Lemma process_rows_long (pre post : list (list string)) (long : list string)
  (written : list Render.Pdf) :
  Forall (fun row => (length row <= 2)%nat) pre ->
  (2 < length long)%nat ->
  rows_from (pre ++ long :: post) written
  = (written ++ omap row_to_pdf pre, Some ValueError).
Proof.
  intros H Hlong. revert written.
  induction H as [|row rows Hrow _ IH]; intros written.
  - simpl. rewrite app_nil_r.
    destruct long as [|a [|b [|c long]]]; simpl in Hlong; try lia.
    reflexivity.
  - cbn [app process_rows omap list_omap].
    destruct row as [|title [|url [|x row]]]; simpl in Hrow; try lia.
    + simpl. apply IH.
    + simpl. apply IH.
    + cbn [length Nat.ltb Nat.leb pdf_of_row].
      destruct (row_pdf_returns title url) as [[pdf|] ->].
      * rewrite IH. now rewrite <- app_assoc.
      * apply IH.
Qed.

Lemma process_rows_exception (rows : list (list string))
  (written : list Render.Pdf) :
  (rows_from rows written).2
  = if existsb (fun row => (2 <? length row)%nat) rows
    then Some ValueError else None.
Proof.
  revert written. induction rows as [|row rows IH]; intros written.
  - reflexivity.
  - cbn [process_rows existsb].
    destruct row as [|title [|url [|x row]]].
    + simpl. apply IH.
    + simpl. apply IH.
    + cbn [length Nat.ltb Nat.leb orb].
      destruct (row_pdf_returns title url) as [[pdf|] ->]; apply IH.
    + reflexivity.
Qed.

Lemma process_rows_written (rows : list (list string))
  (written : list Render.Pdf) (pdf : Render.Pdf) :
  pdf ∈ (rows_from rows written).1 ->
  pdf ∈ written
  \/ exists title url,
       [title; url] ∈ rows /\ row_pdf_of title url = ET.Returns (Some pdf).
Proof.
  revert written. induction rows as [|row rows IH]; intros written.
  - simpl. now left.
  - cbn [process_rows].
    assert (Hnext : forall w,
      pdf ∈ (rows_from rows w).1 ->
      pdf ∈ w
      \/ exists title url,
           [title; url] ∈ row :: rows
           /\ row_pdf_of title url = ET.Returns (Some pdf)).
    { intros w Hw. destruct (IH w Hw) as [?|[t [u [Hin Hr]]]]; [now left|].
      right. exists t, u. split; [now apply list_elem_of_further | assumption]. }
    destruct row as [|title [|url [|x row]]].
    + simpl. apply Hnext.
    + simpl. apply Hnext.
    + cbn [length Nat.ltb Nat.leb].
      destruct (row_pdf_of title url) as [[p|]|e] eqn:E.
      * intros H. destruct (Hnext _ H) as [Hw|?]; [|now right].
        apply elem_of_app in Hw as [?|Hp]; [now left|].
        apply list_elem_of_singleton in Hp as ->.
        right. exists title, url. split; [apply list_elem_of_here | assumption].
      * apply Hnext.
      * simpl. now left.
    + simpl. now left.
Qed.

End ProcessCsvFacts.


Example process_csv_reading_on_rows :
  process_csv_reading demo_fetch demo_expat "out"
    (Reads [ ["title"; "url"]; ["Film"; "https://example.org/a.vtt"] ]
       (Some UnicodeDecodeError))
  = ([ Render.mkPdf "out/Film.pdf" "Film" ["[00:00:01.000]: Hello world"] ],
     Some (Reading UnicodeDecodeError))
  /\ process_csv_reading demo_fetch demo_expat "out"
       (Reads [ ["title"; "url"]; ["a"; "b"; "c"] ] (Some UnicodeDecodeError))
     = ([], Some (Batch ValueError)).
Proof. split; vm_compute; reflexivity. Qed.


(** X9. Every PDF [process_csv] writes comes from a row of two fields after
    the header, whose request gave a content that is not empty and whose
    parser, chosen by the rule of the dispatcher, returned at least one
    subtitle; the PDF has the title of the row for heading and one cell for
    each subtitle. *)
Theorem process_csv_pdfs
  (fetch_subtitles : string -> option string) (expat : string -> ET.Document)
  (output_folder : string) (file : option (list (list string)))
  (pdf : Render.Pdf) :
  pdf ∈ (process_csv fetch_subtitles expat output_folder file).1 ->
  exists header rows title url content subtitles,
    file = Some (header :: rows) /\ [title; url] ∈ rows
    /\ fetch_subtitles url = Some content /\ content <> ""
    /\ run_parser expat (if is_vtt url content then UseVtt else UseEbuTt)
         content = ET.Returns (Some subtitles)
    /\ subtitles <> []
    /\ pdf = Render.create_pdf title subtitles output_folder
    /\ Render.heading pdf = title
    /\ length (Render.cells pdf) = length subtitles.
Proof.
  destruct file as [[|header rows]|]; simpl; try now intros ?%elem_of_nil.
  intros H. apply process_rows_written in H as [H|[title [url [Hin Hr]]]];
    [now apply elem_of_nil in H|].
  apply row_pdf_some in Hr as [content [subtitles [Hf [Hc [Hp [Hs ->]]]]]].
  exists header, rows, title, url, content, subtitles.
  repeat split; try assumption. simpl. now rewrite length_fmap.
Qed.


Lemma process_csv_pdfs_witness :
  let file := Some [ ["title"; "url"]; ["Film"; "https://example.org/a.vtt"] ] in
  let pdf := Render.create_pdf "Film" ["[00:00:01.000]: Hello world"] "out" in
  exists header rows title url content subtitles,
    file = Some (header :: rows) /\ [title; url] ∈ rows
    /\ demo_fetch url = Some content /\ content <> ""
    /\ run_parser demo_expat (if is_vtt url content then UseVtt else UseEbuTt)
         content = ET.Returns (Some subtitles)
    /\ subtitles <> []
    /\ pdf = Render.create_pdf title subtitles "out"
    /\ Render.heading pdf = title
    /\ length (Render.cells pdf) = length subtitles.
Proof.
  apply (process_csv_pdfs demo_fetch demo_expat "out").
  vm_compute. apply list_elem_of_here.
Defined.

Example process_csv_on_rows :
  process_csv demo_fetch demo_expat "out"
    (Some [ ["title"; "url"]; ["Film: part 1/2"; "https://example.org/a.vtt"];
            []; ["Gone"; "https://example.org/404"];
            ["a"; "b"; "c"]; ["Film"; "https://example.org/a.vtt"] ])
  = ([ Render.mkPdf "out/Film_ part 1_2.pdf" "Film: part 1/2"
         ["[00:00:01.000]: Hello world"] ],
     Some ValueError).
Proof. vm_compute. reflexivity. Qed.

(** ** The story of src/main.py *)

Lemma join_cons (sep x : string) (l : list string) :
  l <> [] -> join sep (x :: l) = x +:+ sep +:+ join sep l.
Proof. destruct l; [contradiction | reflexivity]. Qed.

Lemma join_cons_char (sep : string) (c : ascii) (p : string) (ps : list string) :
  join sep (String c p :: ps) = String c (join sep (p :: ps)).
Proof. destruct ps; reflexivity. Qed.

Lemma split_char_cons (x c : ascii) (s : string) :
  split (String c s) (String x "")
  = if Ascii.eqb x c then "" :: split s (String x "")
    else match split s (String x "") with
         | p :: ps => String c p :: ps
         | [] => [String c ""]
         end.
Proof.
  unfold split. cbn [split_go startswith]. now rewrite andb_true_r.
Qed.

(** A string without the separator is the only piece of its split. *)
Lemma split_lacks (x : ascii) (s : string) :
  lacks x s = true -> split s (String x "") = [s].
Proof.
  induction s as [|c s IH]; [reflexivity|].
  cbn [lacks all_chars]. rewrite andb_true_iff, negb_true_iff.
  intros [Hc Hs]. rewrite split_char_cons, Hc.
  unfold lacks in IH. now rewrite (IH Hs).
Qed.

Lemma replace_lacks (x : ascii) (s new : string) :
  lacks x new = true ->
  lacks x (MainRender.replace s (String x "") new) = true.
Proof.
  intros Hnew. unfold MainRender.replace.
  induction s as [|c s IH]; [reflexivity|].
  rewrite split_char_cons.
  pose proof (split_go_nonempty (String x "") 0 s) as Hne.
  fold (split s (String x "")) in Hne.
  destruct (Ascii.eqb x c) eqn:E.
  - rewrite join_cons by assumption.
    simpl. now rewrite lacks_app, Hnew, IH.
  - destruct (split s (String x "")) as [|p ps]; [contradiction|].
    rewrite join_cons_char. cbn [lacks all_chars].
    rewrite E. exact IH.
Qed.

Lemma replace_unchanged (x : ascii) (s new : string) :
  lacks x s = true -> MainRender.replace s (String x "") new = s.
Proof.
  intros H. unfold MainRender.replace. now rewrite (split_lacks x s H).
Qed.

Lemma entries_length (subtitles : list (option string * string)) :
  length (subtitles ≫= MainRender.entry) = (2 * length subtitles)%nat.
Proof.
  induction subtitles as [|[ts tx] l IH]; [reflexivity|].
  cbn [mbind list_bind]. rewrite length_app, IH. simpl. lia.
Qed.

(** X10. The story [create_pdf] of src/main.py builds has the title, a
    spacer and two paragraphs for each subtitle, in their order: the
    timestamp in brackets, and the text with every line feed turned into
    [<br/>]. No text paragraph has a line feed left, and a text without line
    feed is taken as it is. *)
Theorem story_of_subtitles (subtitles : list (option string * string)) :
  MainRender.create_pdf subtitles
  = [MainRender.Paragraph "Subtitle Script" "Title"; MainRender.Spacer 1 30]
    ++ (subtitles ≫= fun cue =>
          [ MainRender.Paragraph ("[" +:+ default "None" cue.1 +:+ "]")
              "TimestampStyle";
            MainRender.Paragraph (MainRender.replace cue.2 nl "<br/>")
              "TextStyle" ])
  /\ length (MainRender.create_pdf subtitles) = (2 + 2 * length subtitles)%nat
  /\ (forall text,
        MainRender.Paragraph text "TextStyle" ∈ MainRender.create_pdf subtitles ->
        lacks LF text = true)
  /\ forall text,
       lacks LF text = true -> MainRender.replace text nl "<br/>" = text.
Proof.
  split; [|split; [|split]].
  - unfold MainRender.create_pdf. f_equal.
    induction subtitles as [|[ts tx] l IH]; [reflexivity|].
    cbn [mbind list_bind]. now rewrite IH.
  - unfold MainRender.create_pdf. rewrite length_app, entries_length.
    reflexivity.
  - intros text H. unfold MainRender.create_pdf in H.
    apply elem_of_app in H as [H|H].
    + apply list_elem_of_In in H. simpl in H.
      destruct H as [H|[H|[]]]; discriminate.
    + apply list_elem_of_bind in H as [[ts tx] [H _]].
      apply list_elem_of_In in H. simpl in H.
      destruct H as [H|[H|[]]]; [discriminate|].
      injection H as <-. now apply replace_lacks.
  - intros text H. now apply replace_unchanged.
Qed.

Lemma story_accepted (markup_ok : string -> bool)
  (story : list MainRender.flowable) :
  forallb (MainRender.paragraph_ok markup_ok) story = true
  <-> forall text style,
        MainRender.Paragraph text style ∈ story -> markup_ok text = true.
Proof.
  rewrite forallb_forall. split.
  - intros H text style Hin. apply list_elem_of_In in Hin.
    apply (H _ Hin).
  - intros H [text style|w h] Hin; [|reflexivity].
    apply list_elem_of_In in Hin. apply (H _ _ Hin).
Qed.

(** X11. [main] of src/main.py catches what [parse_subtitle_xml] and
    [create_pdf] raise. It hands a story to [doc.build] exactly when
    [ET.parse] gives a well-formed tree and reportlab accepts as markup the
    text of every paragraph of the story, which is then the story of the
    cues of [parse_subtitle_xml], two paragraphs for each [p] element
    selected. When [ET.parse] raises, [ParseError] or another exception, or
    when a paragraph is rejected, no story is built. A [p] element without
    [begin] is headed [[None]]. *)
Theorem main_builds_story (markup_ok : string -> bool) :
  (forall input story,
     MainRender.main markup_ok input = Some story
     <-> exists root subtitles,
           input = MainRender.Xml (ET.WellFormed root)
           /\ Main.parse_subtitle_xml (ET.WellFormed root)
              = ET.Returns subtitles
           /\ story = MainRender.create_pdf subtitles
           /\ forall text style,
                MainRender.Paragraph text style ∈ story ->
                markup_ok text = true)
  /\ (forall root,
        exists ns,
          let ps := ET.findall_descendants (ns +:+ "p") root in
          Main.parse_subtitle_xml (ET.WellFormed root)
          = ET.Returns (Main.cue_of_p ns <$> ps)
          /\ length (MainRender.create_pdf (Main.cue_of_p ns <$> ps))
             = (2 + 2 * length ps)%nat)
  /\ MainRender.main markup_ok MainRender.Unreadable = None
  /\ MainRender.main markup_ok (MainRender.Xml ET.NotWellFormed) = None
  /\ forall ns p,
       ET.attrib p !! "begin" = None ->
       exists text,
         MainRender.entry (Main.cue_of_p ns p)
         = [ MainRender.Paragraph "[None]" "TimestampStyle";
             MainRender.Paragraph text "TextStyle" ].
Proof.
  split; [|split; [|split; [|split]]].
  - intros input story. split.
    + destruct input as [|[|root]]; try discriminate.
      unfold MainRender.main.
      destruct (Main.parse_subtitle_xml (ET.WellFormed root))
        as [subtitles|e] eqn:E; [|discriminate].
      cbn zeta.
      destruct (forallb (MainRender.paragraph_ok markup_ok)
                  (MainRender.create_pdf subtitles)) eqn:F; [|discriminate].
      intros [= <-]. exists root, subtitles.
      repeat split; try assumption. now apply story_accepted.
    + intros [root [subtitles [-> [E [-> H]]]]].
      unfold MainRender.main. rewrite E. cbn zeta.
      now rewrite (proj2 (story_accepted markup_ok _) H).
  - intros root. destruct (namespace_of_returns root) as [ns Hns].
    exists ns. intros ps. split.
    + now apply parse_subtitle_xml_well_formed.
    + unfold MainRender.create_pdf.
      rewrite length_app, entries_length, length_fmap. reflexivity.
  - reflexivity.
  - reflexivity.
  - intros ns p H. unfold Main.cue_of_p, ET.get, MainRender.entry.
    rewrite H. eauto.
Qed.

Example story_of_two_line_document :
  MainRender.main (fun _ => true) (MainRender.Xml two_line_document)
  = Some [ MainRender.Paragraph "Subtitle Script" "Title";
           MainRender.Spacer 1 30;
           MainRender.Paragraph "[00:00:02.500]" "TimestampStyle";
           MainRender.Paragraph "Line one <br/> Line two" "TextStyle" ]
  /\ MainRender.main (fun text => negb (contains text "<br/>"))
       (MainRender.Xml two_line_document)
     = None.
Proof. split; vm_compute; reflexivity. Qed.

(** ** More on the WebVTT parser *)

Section VttMore.

Import Vtt.

Lemma splitlines_go_crlf (cur s : string) :
  lacks CR s = true ->
  splitlines_go false cur (crlf s) = splitlines_go false cur s.
Proof.
  revert cur. induction s as [|c s IH]; intros cur H; [reflexivity|].
  cbn [lacks all_chars] in H. apply andb_true_iff in H as [Hc H].
  apply negb_true_iff in Hc. rewrite Ascii.eqb_sym in Hc.
  cbn [crlf]. destruct (Ascii.eqb c LF) eqn:E.
  - apply Ascii.eqb_eq in E. subst c.
    change (splitlines_go false cur (String CR (String LF (crlf s))))
      with (String.rev cur :: splitlines_go false "" (crlf s)).
    change (splitlines_go false cur (String LF s))
      with (String.rev cur :: splitlines_go false "" s).
    now rewrite IH.
  - cbn [splitlines_go andb]. rewrite Hc.
    destruct (islinebreak c); now rewrite IH.
Qed.

Lemma all_chars_rev_app (p : ascii -> bool) (s acc : string) :
  all_chars p (String.rev_app s acc) = all_chars p s && all_chars p acc.
Proof.
  revert acc. induction s as [|c s IH]; intros acc; simpl; [reflexivity|].
  rewrite IH. simpl. now rewrite andb_assoc, (andb_comm (all_chars p s)).
Qed.

Lemma all_chars_rev (p : ascii -> bool) (s : string) :
  all_chars p (String.rev s) = all_chars p s.
Proof. unfold String.rev. now rewrite all_chars_rev_app, andb_true_r. Qed.

(** No line of [splitlines] has a line boundary. *)
Lemma splitlines_go_one_line (after_cr : bool) (cur s : string) :
  one_line cur = true ->
  Forall (fun l => one_line l = true) (splitlines_go after_cr cur s).
Proof.
  revert after_cr cur. induction s as [|c s IH]; intros after_cr cur Hcur.
  - simpl. destruct cur; [constructor|].
    constructor; [|constructor]. unfold one_line. now rewrite all_chars_rev.
  - cbn [splitlines_go].
    destruct (after_cr && Ascii.eqb c LF); [now apply IH|].
    destruct (islinebreak c) eqn:E.
    + constructor; [|now apply IH].
      unfold one_line. now rewrite all_chars_rev.
    + apply IH. unfold one_line. cbn [all_chars]. now rewrite E.
Qed.

Lemma splitlines_one_line (s : string) :
  Forall (fun l => one_line l = true) (splitlines s).
Proof. now apply splitlines_go_one_line. Qed.

Lemma rev_app_app (s acc : string) :
  String.rev_app s acc = String.rev s +:+ acc.
Proof.
  unfold String.rev. revert acc.
  induction s as [|c s IH]; intros acc; [reflexivity|].
  cbn [String.rev_app]. rewrite IH, (IH (String c "")).
  now rewrite string_app_assoc.
Qed.

(** The first line of a text is what stands before its first line feed. *)
Lemma splitlines_go_first_line (cur h body : string) :
  one_line h = true ->
  splitlines_go false cur (h +:+ String LF body)
  = (String.rev cur +:+ h) :: splitlines_go false "" body.
Proof.
  revert cur. induction h as [|c h IH]; intros cur H.
  - now rewrite string_app_nil_r.
  - cbn [one_line all_chars] in H. apply andb_true_iff in H as [Hc H].
    apply negb_true_iff in Hc.
    cbn [String.append splitlines_go andb]. rewrite Hc.
    rewrite (IH _ H). f_equal.
    unfold String.rev at 1. cbn [String.rev_app].
    rewrite rev_app_app. now rewrite string_app_assoc.
Qed.

Lemma all_chars_lstrip (p : ascii -> bool) (s : string) :
  all_chars p s = true -> all_chars p (lstrip s) = true.
Proof.
  induction s as [|c s IH]; [reflexivity|]. intros H. simpl.
  destruct (isspace c); [|assumption].
  simpl in H. apply andb_true_iff in H as [_ H]. now apply IH.
Qed.

Lemma all_chars_rstrip (p : ascii -> bool) (s : string) :
  all_chars p s = true -> all_chars p (rstrip s) = true.
Proof.
  intros H. destruct (rstrip_suffix s) as [ws Hws].
  rewrite Hws, all_chars_app in H. now apply andb_true_iff in H as [H _].
Qed.

Lemma all_chars_strip (p : ascii -> bool) (s : string) :
  all_chars p s = true -> all_chars p (strip s) = true.
Proof. intros H. now apply all_chars_rstrip, all_chars_lstrip. Qed.

Lemma all_chars_join (p : ascii -> bool) (sep : string) (l : list string) :
  all_chars p sep = true ->
  Forall (fun x => all_chars p x = true) l ->
  all_chars p (join sep l) = true.
Proof.
  intros Hsep H. induction H as [|x l Hx Hl IH]; [reflexivity|].
  destruct l as [|y l]; [assumption|].
  rewrite join_cons by discriminate.
  now rewrite !all_chars_app, Hx, Hsep, IH.
Qed.

Lemma all_chars_text_before_arrow (p : ascii -> bool) (l : string) :
  all_chars p l = true -> all_chars p (text_before_arrow l) = true.
Proof.
  induction l as [|c l IH]; [reflexivity|]. intros H.
  rewrite text_before_arrow_cons.
  destruct (startswith (String c l) "-->"); [reflexivity|].
  simpl in *. apply andb_true_iff in H as [Hc H].
  now rewrite Hc, (IH H).
Qed.

(** The lines of the blocks are lines of the text. *)
Lemma block_line_of_text (vtt_content : string) (block : list string) (l : string) :
  block ∈ blocks (drop_header (splitlines vtt_content)) ->
  l ∈ block -> l ∈ splitlines vtt_content.
Proof.
  intros Hb Hl.
  assert (H : l ∈ mjoin (blocks (drop_header (splitlines vtt_content))))
    by (apply list_elem_of_join; eauto).
  unfold blocks in H. rewrite blocks_from_concat in H.
  apply list_elem_of_filter in H as [_ H].
  unfold drop_header in H. destruct (splitlines vtt_content) as [|l0 rest].
  - assumption.
  - destruct (startswith (strip l0) "WEBVTT"); [|assumption].
    now apply list_elem_of_further.
Qed.

(** The cue of a block has the start time of a line of the block. *)
Lemma process_block_timestamp (block : list string) (c : Cue) :
  c ∈ process_block block ->
  exists l, l ∈ block /\ has_arrow l = true
            /\ timestamp c = strip (text_before_arrow l).
Proof.
  intros Hc.
  destruct (last_arrow_split block)
    as [Hno | [pre [l [post [-> [Hl Hpost]]]]]].
  - rewrite (process_block_no_arrow block Hno) in Hc.
    now apply elem_of_nil in Hc.
  - rewrite (process_block_last_arrow pre post l (text_before_arrow l)) in Hc
      by (try apply text_before_arrow_first; assumption).
    destruct (truthy (block_text (pre ++ l :: post)));
      [|now apply elem_of_nil in Hc].
    apply list_elem_of_singleton in Hc as ->.
    exists l. split; [|now split].
    apply elem_of_app. right. apply list_elem_of_here.
Qed.

Lemma strip_inside (s : string) : exists w1 w2, s = w1 +:+ strip s +:+ w2.
Proof.
  destruct (lstrip_prefix s) as [w1 H1].
  destruct (rstrip_suffix (lstrip s)) as [w2 H2].
  exists w1, w2. unfold strip. now rewrite <- H2.
Qed.

(** What stands before the first arrow has no arrow, trimmed or not. *)
Lemma before_first_arrow_no_arrow (l a : string) :
  before_first_arrow l a -> has_arrow (strip a) = false.
Proof.
  intros [[b ->] Hmin]. unfold has_arrow.
  destruct (contains (strip a) "-->") eqn:E; [|reflexivity].
  apply contains_spec in E as [x [y Hxy]].
  destruct (strip_inside a) as [w1 [w2 Ha]].
  specialize (Hmin (w1 +:+ x) (y +:+ w2 +:+ "-->" +:+ b)).
  assert (Heq : a +:+ "-->" +:+ b
                = (w1 +:+ x) +:+ "-->" +:+ y +:+ w2 +:+ "-->" +:+ b).
  { rewrite Ha at 1. rewrite Hxy. now rewrite !string_app_assoc. }
  specialize (Hmin Heq).
  rewrite Ha, Hxy in Hmin. rewrite !string_app_length in Hmin.
  simpl in Hmin. lia.
Qed.

Lemma process_block_length (block : list string) :
  (length (process_block block)
   <= length (filter (fun l => has_arrow l = true) block))%nat.
Proof.
  destruct (last_arrow_split block)
    as [Hno | [pre [l [post [-> [Hl Hpost]]]]]].
  - rewrite (process_block_no_arrow block Hno). simpl. lia.
  - rewrite (process_block_last_arrow pre post l (text_before_arrow l))
      by (try apply text_before_arrow_first; assumption).
    rewrite filter_app, filter_cons_True, length_app by assumption.
    destruct (truthy (block_text (pre ++ l :: post))); simpl; lia.
Qed.

Lemma bind_length_arrows (bs : list (list string)) :
  (length (bs ≫= process_block)
   <= length (filter (fun l => has_arrow l = true) (mjoin bs)))%nat.
Proof.
  induction bs as [|b bs IH]; [reflexivity|].
  cbn [mbind list_bind mjoin list_join].
  rewrite filter_app, !length_app.
  apply Nat.add_le_mono; [apply process_block_length | exact IH].
Qed.

Lemma filter_filter_length {A} (P Q : A -> Prop)
  `{!forall x, Decision (P x)} `{!forall x, Decision (Q x)} (l : list A) :
  (length (filter P (filter Q l)) <= length (filter P l))%nat.
Proof.
  induction l as [|x l IH]; [reflexivity|].
  rewrite (filter_cons Q), (filter_cons P).
  destruct (decide (Q x)), (decide (P x)).
  - rewrite filter_cons_True by assumption. simpl. lia.
  - now rewrite filter_cons_False by assumption.
  - simpl. lia.
  - assumption.
Qed.

End VttMore.

Lemma filter_nil_all {A} (P : A -> Prop) `{!forall x, Decision (P x)}
  (l : list A) :
  (forall x, x ∈ l -> ~ P x) -> filter P l = [].
Proof.
  induction l as [|x l IH]; intros Hall; [reflexivity|].
  rewrite filter_cons_False by (apply Hall, list_elem_of_here).
  apply IH. intros y Hy. apply Hall. now apply list_elem_of_further.
Qed.

Lemma process_block_at_most_one (block : list string) :
  (length (Vtt.process_block block) <= 1)%nat.
Proof.
  unfold Vtt.process_block. destruct (Vtt.scan_block block) as [[tl|] ts];
    [|simpl; lia].
  destruct (truthy tl); [|simpl; lia].
  match goal with |- context [if ?b then _ else _] => destruct b end;
    simpl; lia.
Qed.

Lemma bind_length_blocks (bs : list (list string)) :
  (length (bs ≫= Vtt.process_block) <= length bs)%nat.
Proof.
  induction bs as [|b bs IH]; [reflexivity|].
  cbn [mbind list_bind]. rewrite length_app. cbn [length].
  change (S (length bs)) with (1 + length bs)%nat.
  apply Nat.add_le_mono; [apply process_block_at_most_one | exact IH].
Qed.

(** X12. [parse_vtt] gives the same result for a text with LF line ends and
    for the same text with CR LF line ends. *)
Theorem parse_vtt_crlf (vtt_content : string) :
  lacks CR vtt_content = true ->
  splitlines (crlf vtt_content) = splitlines vtt_content
  /\ Vtt.parse_vtt (crlf vtt_content) = Vtt.parse_vtt vtt_content.
Proof.
  intros H.
  assert (E : splitlines (crlf vtt_content) = splitlines vtt_content)
    by now apply splitlines_go_crlf.
  split; [assumption|].
  unfold Vtt.parse_vtt, Vtt.parse_vtt_cues. now rewrite E.
Qed.

Lemma parse_vtt_crlf_witness :
  splitlines (crlf vtt_single_cue) = splitlines vtt_single_cue
  /\ Vtt.parse_vtt (crlf vtt_single_cue) = Vtt.parse_vtt vtt_single_cue.
Proof. apply (parse_vtt_crlf vtt_single_cue). reflexivity. Defined.

(** X13. [parse_vtt] never returns more entries than the text has blocks,
    nor more than it has lines with an arrow. *)
Theorem parse_vtt_cue_count (vtt_content : string) :
  exists entries,
    Vtt.parse_vtt vtt_content = Some entries
    /\ (length entries
        <= length (blocks (Vtt.drop_header (splitlines vtt_content))))%nat
    /\ (length entries
        <= length (filter (fun l => has_arrow l = true)
                     (splitlines vtt_content)))%nat.
Proof.
  exists (format_cue <$> Vtt.parse_vtt_cues vtt_content).
  split; [reflexivity|].
  rewrite length_fmap, parse_vtt_cues_blocks.
  split; [apply bind_length_blocks|].
  etrans; [apply bind_length_arrows|].
  unfold blocks. rewrite blocks_from_concat. cbn [app].
  etrans; [apply filter_filter_length|].
  unfold Vtt.drop_header. destruct (splitlines vtt_content) as [|l0 rest];
    [reflexivity|].
  destruct (startswith (strip l0) "WEBVTT"); [|reflexivity].
  rewrite (filter_cons _ l0). destruct (decide (has_arrow l0 = true));
    simpl; lia.
Qed.

(** X14. The timestamp of a cue of [parse_vtt] is what a line of the text
    has before its first arrow, trimmed: it has no blank at either end and
    no arrow. *)
Theorem vtt_timestamp_trimmed (vtt_content : string) (c : Cue) :
  c ∈ Vtt.parse_vtt_cues vtt_content ->
  (exists l, l ∈ splitlines vtt_content /\ has_arrow l = true
             /\ timestamp c = strip (text_before_arrow l))
  /\ strip (timestamp c) = timestamp c
  /\ has_arrow (timestamp c) = false.
Proof.
  rewrite parse_vtt_cues_blocks.
  intros [block [Hc Hb]]%list_elem_of_bind.
  destruct (process_block_timestamp block c Hc) as [l [Hl [Ha Ht]]].
  split; [|split].
  - exists l. split; [|now split]. now apply (block_line_of_text _ block).
  - rewrite Ht. apply strip_idem.
  - rewrite Ht. apply (before_first_arrow_no_arrow l).
    now apply text_before_arrow_first.
Qed.

Lemma vtt_timestamp_trimmed_witness :
  (exists l, l ∈ splitlines vtt_two_arrows /\ has_arrow l = true
             /\ timestamp (mkCue "00:00:05.000" "Hello")
                = strip (text_before_arrow l))
  /\ strip (timestamp (mkCue "00:00:05.000" "Hello"))
     = timestamp (mkCue "00:00:05.000" "Hello")
  /\ has_arrow (timestamp (mkCue "00:00:05.000" "Hello")) = false.
Proof.
  apply (vtt_timestamp_trimmed vtt_two_arrows).
  vm_compute. apply list_elem_of_here.
Defined.



(** X16. A block whose lines without arrow are all numbers gives no cue: a
    subtitle whose text is only digits is lost with the index numbers. *)
Theorem vtt_number_only_text_lost (block : list string) :
  (forall l, l ∈ block -> has_arrow l = false -> isdigit (strip l) = true) ->
  Vtt.process_block block = [].
Proof.
  intros H. apply process_block_nil. right.
  unfold block_text, kept_lines. rewrite filter_nil_all; [reflexivity|].
  intros t Ht Hnot. unfold candidate_lines in Ht.
  apply list_elem_of_fmap in Ht as [l [-> Hl]].
  apply list_elem_of_filter in Hl as [Ha Hl].
  rewrite (H l Hl Ha) in Hnot. exact Hnot.
Qed.

Lemma vtt_number_only_text_lost_witness :
  Vtt.process_block ["7"; "00:00:01.000 --> 00:00:03.000"; " 2024 "] = [].
Proof.
  apply (vtt_number_only_text_lost
           ["7"; "00:00:01.000 --> 00:00:03.000"; " 2024 "]).
  intros l Hl Ha.
  apply list_elem_of_In in Hl. simpl in Hl.
  destruct Hl as [<-|[<-|[<-|[]]]]; [reflexivity | discriminate | reflexivity].
Defined.

(** X17. A first line that begins with [WEBVTT], whatever follows on it, is
    left out, and only that one: the cues are those of the blocks of the
    rest of the text, and the result is that of [parse_vtt] on the rest when
    the rest does not begin with such a line itself. *)
Theorem vtt_header_line_ignored (h body : string) :
  one_line h = true -> startswith (strip h) "WEBVTT" = true ->
  Vtt.parse_vtt_cues (h +:+ nl +:+ body)
  = blocks (splitlines body) ≫= Vtt.process_block
  /\ (Vtt.drop_header (splitlines body) = splitlines body ->
      Vtt.parse_vtt (h +:+ nl +:+ body) = Vtt.parse_vtt body).
Proof.
  intros Hh Hw.
  assert (E : splitlines (h +:+ nl +:+ body) = h :: splitlines body).
  { change (h +:+ nl +:+ body) with (h +:+ String LF body).
    unfold splitlines. now rewrite splitlines_go_first_line. }
  assert (Hcues : Vtt.parse_vtt_cues (h +:+ nl +:+ body)
                  = blocks (splitlines body) ≫= Vtt.process_block).
  { rewrite parse_vtt_cues_blocks, E. unfold Vtt.drop_header. now rewrite Hw. }
  split; [assumption|].
  intros Hb. unfold Vtt.parse_vtt. f_equal. f_equal.
  rewrite Hcues, parse_vtt_cues_blocks. now rewrite Hb.
Qed.

Lemma vtt_header_line_ignored_witness :
  Vtt.parse_vtt_cues ("WEBVTT - a film" +:+ nl +:+ vtt_single_cue)
  = blocks (splitlines vtt_single_cue) ≫= Vtt.process_block
  /\ (Vtt.drop_header (splitlines vtt_single_cue) = splitlines vtt_single_cue ->
      Vtt.parse_vtt ("WEBVTT - a film" +:+ nl +:+ vtt_single_cue)
      = Vtt.parse_vtt vtt_single_cue).
Proof.
  apply (vtt_header_line_ignored "WEBVTT - a film" vtt_single_cue);
    reflexivity.
Defined.

(** ** More on the XML parsers *)

Lemma iter_root (root : ET.Element) :
  ET.iter root = root :: ET.descendants root.
Proof. unfold ET.descendants. now destruct root. Qed.

(** X18. In a document without namespace, that is, whose tags have no
    brace, neither parser selects a [p] element: [parse_subtitle_xml]
    takes the tag of the root and [}] for namespace and returns no cue, and
    so does [parse_ebu_tt]. *)
Theorem no_namespace_no_cues (root : ET.Element) :
  lacks "{" (ET.tag root) = true ->
  Forall (fun e => lacks "}" (ET.tag e) = true) (ET.iter root) ->
  Main.namespace_of root = ET.Returns (ET.tag root +:+ "}")
  /\ Main.parse_subtitle_xml (ET.WellFormed root) = ET.Returns []
  /\ EbuTt.parse_ebu_tt (ET.WellFormed root) = ET.Returns (Some []).
Proof.
  intros Hopen Hall. rewrite iter_root in Hall.
  apply Forall_cons in Hall as [Hroot Hdesc]. rewrite Forall_forall in Hdesc.
  assert (Hns : Main.namespace_of root = ET.Returns (ET.tag root +:+ "}")).
  { unfold Main.namespace_of. now rewrite (split_lacks "}" _ Hroot). }
  split; [assumption|]. split.
  - rewrite (parse_subtitle_xml_well_formed root _ Hns). f_equal.
    unfold ET.findall_descendants. rewrite filter_nil_all; [reflexivity|].
    intros e He Hsel. unfold ET.tag_selects in Hsel.
    assert (Hfirst : forall q,
      startswith ((ET.tag root +:+ "}") +:+ "p") (String "{" q) = false).
    { intros q. destruct (ET.tag root) as [|c r]; [reflexivity|].
      cbn [lacks all_chars] in Hopen.
      apply andb_true_iff in Hopen as [Hc _]. apply negb_true_iff in Hc.
      cbn [String.append startswith]. now rewrite Hc. }
    rewrite !Hfirst in Hsel. apply String.eqb_eq in Hsel.
    specialize (Hdesc e He). rewrite Hsel in Hdesc.
    rewrite string_app_assoc, lacks_app in Hdesc.
    apply andb_true_iff in Hdesc as [_ Hdesc]. discriminate.
  - rewrite parse_ebu_tt_well_formed. do 2 f_equal.
    unfold EbuTt.ebu_tt_cues. rewrite findall_tt_p.
    rewrite filter_nil_all; [reflexivity|].
    intros e He Htag. specialize (Hdesc e He).
    rewrite Htag in Hdesc. discriminate.
Qed.

Lemma no_namespace_no_cues_witness :
  Main.namespace_of plain_document = ET.Returns (ET.tag plain_document +:+ "}")
  /\ Main.parse_subtitle_xml (ET.WellFormed plain_document) = ET.Returns []
  /\ EbuTt.parse_ebu_tt (ET.WellFormed plain_document) = ET.Returns (Some []).
Proof.
  apply (no_namespace_no_cues plain_document);
    [reflexivity | repeat constructor].
Defined.

(** X19. For a paragraph that has no text of its own and is made of spans of
    the namespace with nothing below them and no tail, the text the two
    parsers build is the same but for the trimming of [parse_ebu_tt], which
    returns the cue of that text if it is not empty once trimmed. *)
Theorem span_paragraph_parsers_agree (ns : string) (p : ET.Element) :
  span_paragraph ns p = true ->
  join " " (ET.itertext p) = (Main.cue_of_p ns p).2
  /\ EbuTt.cue_of_p p
     = (let t := strip (Main.cue_of_p ns p).2 in
        if truthy t
        then Some (mkCue (default "00:00:00.000" (Main.cue_of_p ns p).1) t)
        else None).
Proof.
  intros H.
  assert (E : ET.itertext p = Main.filter_none (Main.text_parts ns p)).
  { destruct p as [t a tx tl cs]. unfold span_paragraph in H.
    cbn [ET.text ET.children] in H. apply andb_true_iff in H as [Htx Hcs].
    rewrite itertext_unfold.
    destruct (ET.some_text tx); [|discriminate]. cbn [app].
    unfold Main.filter_none, Main.text_parts. cbn [ET.children].
    induction cs as [|c cs IH]; [reflexivity|].
    cbn [forallb] in Hcs. apply andb_true_iff in Hcs as [Hc Hcs].
    cbn [mbind list_bind]. rewrite bind_app, (IH Hcs). f_equal.
    unfold plain_span in Hc.
    apply andb_true_iff in Hc as [Hc Htail].
    apply andb_true_iff in Hc as [Htag Hleaf].
    unfold Main.part_of_child. rewrite Htag.
    cbn [mbind list_bind]. rewrite app_nil_r.
    destruct c as [ct ca ctx ctl ccs]. cbn [ET.children ET.tail ET.text] in *.
    destruct ccs; [|discriminate]. rewrite itertext_unfold.
    destruct (ET.some_text ctl); [|discriminate].
    cbn [mbind list_bind]. now rewrite !app_nil_r. }
  split.
  - unfold Main.cue_of_p. cbn [snd]. now rewrite E.
  - unfold EbuTt.cue_of_p, Main.cue_of_p, ET.get. cbn [fst snd].
    now rewrite E.
Qed.

Lemma span_paragraph_parsers_agree_witness :
  join " " (ET.itertext spans_p) = (Main.cue_of_p ttml_ns spans_p).2
  /\ EbuTt.cue_of_p spans_p
     = (let t := strip (Main.cue_of_p ttml_ns spans_p).2 in
        if truthy t
        then Some (mkCue (default "00:00:00.000"
                            (Main.cue_of_p ttml_ns spans_p).1) t)
        else None).
Proof. apply (span_paragraph_parsers_agree ttml_ns spans_p). reflexivity. Defined.

Example spans_p_cues :
  EbuTt.cue_of_p spans_p = Some (mkCue "00:00:03.000" "Good  evening")
  /\ Main.cue_of_p ttml_ns spans_p = (Some "00:00:03.000", " Good  evening ").
Proof. split; vm_compute; reflexivity. Qed.
